(** * Yt-downloader: a shallow embedding of [app.py]

    The development follows the layout of the source file: the Python
    primitives the code relies on, the two format-selector helpers
    ([list_available_resolutions], [list_audio_formats]), the transfer
    helpers ([detect_mime_from_ext], [read_first_file_by_prefix]) and the two
    downloaders ([download_video], [download_audio]), and the pickers and
    download buttons of the page.  Definitions come first, the theorems
    about them afterwards. *)

From Stdlib Require Import ZArith QArith DecimalString Ascii String.
From Stdlib Require DecimalZ DecimalPos.
From stdpp Require Import base gmap sets list strings sorting.

Local Open Scope string_scope.
Local Open Scope Z_scope.
Local Set Warnings "-clear-no-such-hyp".

(** ** Python primitives *)

(** Numbers found in an info dictionary: a Python [int], or a finite [float]
    given by its exact rational value. *)
Inductive number :=
  | PyInt (z : Z)
  | PyFloat (q : Q).

(** Truth value of an [int]: only [0] is falsy. *)
Definition truthy_int (z : Z) : bool := negb (z =? 0).

(** Truth value of a number: [0] and [0.0] are falsy. *)
Definition truthy_num (n : number) : bool :=
  match n with
  | PyInt z => truthy_int z
  | PyFloat q => negb (Qnum q =? 0)
  end.

(** The zeros among the numbers: [0] and [0.0]. *)
Definition is_zero (n : number) : Prop :=
  match n with
  | PyInt z => z = 0
  | PyFloat q => Qeq q 0
  end.

(** [int(x)]: the identity on an [int], truncation towards zero on a float. *)
Definition int_of_num (n : number) : Z :=
  match n with
  | PyInt z => z
  | PyFloat q => Z.quot (Qnum q) (Z.pos (Qden q))
  end.

(** Truth value of a string: only the empty string is falsy. *)
Definition truthy_str (s : string) : bool :=
  match s with
  | EmptyString => false
  | String _ _ => true
  end.

(** [str(n)] and the [{n}] field of an f-string, for an [int]. *)
Definition str_of_int (z : Z) : string := NilZero.string_of_int (Z.to_int z).

(** [x or d] where [x] is an optional [int]. *)
Definition int_or (x : option Z) (d : Z) : Z :=
  match x with
  | Some z => if truthy_int z then z else d
  | None => d
  end.

(** [x or d] where [x] is an optional string. *)
Definition str_or (x : option string) (d : string) : string :=
  match x with
  | Some s => if truthy_str s then s else d
  | None => d
  end.

(** [s.lower()] on ASCII text. *)
Definition ascii_lower (c : ascii) : ascii :=
  let n := nat_of_ascii c in
  if ((65 <=? n)%nat && (n <=? 90)%nat)%bool then ascii_of_nat (n + 32) else c.

Fixpoint lower (s : string) : string :=
  match s with
  | EmptyString => EmptyString
  | String c s' => String (ascii_lower c) (lower s')
  end.

(** [s.split(sep)] for a one-character separator: never the empty list. *)
Fixpoint split (sep : ascii) (s : string) : list string :=
  match s with
  | EmptyString => [EmptyString]
  | String c s' =>
      if Ascii.eqb c sep then EmptyString :: split sep s'
      else match split sep s' with
           | [] => [String c EmptyString]
           | w :: ws => String c w :: ws
           end
  end.

(** [xs[-1]] on a list of strings that is known to be non-empty. *)
Definition last_item (xs : list string) : string := default EmptyString (last xs).

(** [s.startswith(p)]. *)
Definition startswith (s p : string) : bool := String.prefix p s.

(** [s.endswith("/")]. *)
Fixpoint endswith_sep (s : string) : bool :=
  match s with
  | EmptyString => false
  | String c EmptyString => Ascii.eqb c "/"%char
  | String _ s' => endswith_sep s'
  end.

(** [os.path.join(a, b)] (POSIX), two components. *)
Definition os_path_join (a b : string) : string :=
  if startswith b "/" then b
  else if (negb (truthy_str a) || endswith_sep a)%bool then a ++ b
  else a ++ "/" ++ b.

(** [sorted(xs, key=k, reverse=True)] and [xs.sort(key=k, reverse=True)]:
    a stable sort, larger keys first, equal keys in their original order. *)
Fixpoint insert_desc {A} (k : A → Z) (x : A) (l : list A) : list A :=
  match l with
  | [] => [x]
  | y :: l' => if k x <? k y then y :: insert_desc k x l' else x :: l
  end.

Definition sorted_desc {A} (k : A → Z) (l : list A) : list A :=
  foldr (insert_desc k) [] l.

(** Outcome of a call that may raise. *)
Inductive exn :=
  | FileNotFoundError (msg : string)
  | DownloadError (msg : string).

Inductive Result (A : Type) :=
  | Ok (a : A)
  | Raise (e : exn).
Arguments Ok {A} a.
Arguments Raise {A} e.

(** ** Data model *)

(** One entry of [info["formats"]].  A field is [None] when the key is
    missing (or maps to [None]): that is what [f.get] returns.  Heights are
    pixel counts, hence integers; the average bitrate is a number. *)
Record Format := {
  ext : option string;
  vcodec : option string;
  acodec : option string;
  height : option Z;
  abr : option number
}.

(** The info dictionary returned by the extractor. *)
Record Info := {
  title : option string;
  formats : option (list Format)
}.

(** [info.get("formats", [])]. *)
Definition info_formats (info : Info) : list Format := default [] (formats info).

(** An audio option: container extension and optional bitrate. *)
Abbreviation AudioOpt := (string * option Z)%type.

(** ** Format selector *)

(** Body of the loop of [list_available_resolutions]: the set [heights]
    after visiting [f]. *)
Definition add_height (heights : gset Z) (f : Format) : gset Z :=
  match height f with
  | Some h =>
      if (bool_decide (vcodec f ≠ Some "none") && truthy_int h)%bool
      then heights ∪ {[ h ]}
      else heights
  | None => heights
  end.

Definition collect_heights (fmts : list Format) : gset Z :=
  foldl add_height ∅ fmts.

(** The guard of the loop of [list_audio_formats]. *)
Definition audio_only (f : Format) : bool :=
  (bool_decide (vcodec f = Some "none")
   && negb (bool_decide (acodec f = None) || bool_decide (acodec f = Some "none")))%bool.

(** The pair appended for a format that passes the guard. *)
Definition audio_entry (f : Format) : AudioOpt :=
  let ext := str_or (ext f) "m4a" in
  (ext, match abr f with
        | Some a => if truthy_num a then Some (int_of_num a) else None
        | None => None
        end).

Definition add_audio (audio : list AudioOpt) (f : Format) : list AudioOpt :=
  if audio_only f then audio ++ [audio_entry f] else audio.

Definition collect_audio (fmts : list Format) : list AudioOpt :=
  foldl add_audio [] fmts.

(** Sort key of [list_audio_formats]: [x[1] or 0]. *)
Definition abr_key (x : AudioOpt) : Z := int_or x.2 0.

Section Selector.
(** Python leaves the iteration order of a set unspecified: the order in
    which a set is turned into a list is a parameter of the model. *)
Variable iter_heights : gset Z → list Z.
Variable iter_audio : gset AudioOpt → list AudioOpt.

Definition list_available_resolutions (info : Info) : list Z :=
  let heights := collect_heights (info_formats info) in
  sorted_desc id (iter_heights heights).

Definition list_audio_formats (info : Info) : list AudioOpt :=
  let audio := collect_audio (info_formats info) in
  let audio := iter_audio (list_to_set audio) in
  sorted_desc abr_key audio.
End Selector.

(** ** Transfer helpers *)

Definition mapping : gmap string string :=
  list_to_map
    [ ("mp4", "video/mp4");
      ("webm", "video/webm");
      ("mkv", "video/x-matroska");
      ("mp3", "audio/mpeg");
      ("m4a", "audio/mp4");
      ("aac", "audio/aac");
      ("opus", "audio/ogg");
      ("wav", "audio/wav") ].

Definition detect_mime_from_ext (ext : string) : string :=
  default "application/octet-stream" (mapping !! lower ext).

(** A directory as [os.listdir] enumerates it: the regular files it holds,
    each with its content. *)
Abbreviation Dir := (list (string * list Byte.byte)).

(** What a successful download hands back: bytes, file name, MIME type. *)
Abbreviation Payload := (list Byte.byte * string * string)%type.

(** The loop of [read_first_file_by_prefix] over the directory listing. *)
Fixpoint scan_listing (entries : Dir) (prefix : string) : Result Payload :=
  match entries with
  | [] => Raise (FileNotFoundError "Downloaded file not found.")
  | (name, data) :: rest =>
      if startswith name prefix then
        let ext := last_item (split "."%char name) in
        Ok (data, name, detect_mime_from_ext ext)
      else scan_listing rest prefix
  end.

(** [os.listdir] itself raises when the folder does not exist. *)
Definition read_first_file_by_prefix
    (fs : gmap string Dir) (folder : string) (prefix : string) : Result Payload :=
  match fs !! folder with
  | Some entries => scan_listing entries prefix
  | None => Raise (FileNotFoundError "No such file or directory")
  end.

(** ** Downloaders *)

(** One entry of the ["postprocessors"] option. *)
Record PostProcessor := {
  key : string;
  preferredcodec : string;
  preferredquality : string
}.

(** The options dictionary handed to [YoutubeDL].  An optional field is
    [None] when the dictionary has no such key. *)
Record YdlOpts := {
  format : string;
  outtmpl : string;
  merge_output_format : option string;
  quiet : bool;
  postprocessor_args : option (list string);
  postprocessors : option (list PostProcessor)
}.

(** The state a download runs in: the temporary directories on disk, and
    (as a ghost record) every call made to the extractor so far, with the
    options and the URL list it was given. *)
Record World := {
  scratch : gmap string Dir;
  calls : list (YdlOpts * list string)
}.

(** Computations that read and write the world and may raise. *)
Definition M (A : Type) : Type := World → Result A * World.

Definition ret {A} (a : A) : M A := λ w, (Ok a, w).

Definition raise {A} (e : exn) : M A := λ w, (Raise e, w).

Definition bind {A B} (m : M A) (k : A → M B) : M B :=
  λ w, match m w with
       | (Ok a, w') => k a w'
       | (Raise e, w') => (Raise e, w')
       end.

Notation "'let*' x ':=' m 'in' k" := (bind m (λ x, k))
  (at level 10, x name, m at level 100, k at level 200).

(** The format selector built at the top of [download_video]. *)
Definition video_format_selector (height : option Z) : string :=
  match height with
  | Some h =>
      if truthy_int h then
        "bestvideo[height=" ++ str_of_int h ++ "]+bestaudio/best[height="
          ++ str_of_int h ++ "]/best"
      else "bestvideo+bestaudio/best"
  | None => "bestvideo+bestaudio/best"
  end.

Definition video_ydl_opts (tmp : string) (height : option Z) : YdlOpts :=
  let format_selector := video_format_selector height in
  {| format := format_selector;
     outtmpl := os_path_join tmp "output.%(ext)s";
     merge_output_format := Some "mp4";
     quiet := true;
     postprocessor_args := Some [];
     postprocessors := None |}.

Definition audio_ydl_opts (tmp : string) (target_codec : string)
    (target_quality_kbps : option Z) : YdlOpts :=
  {| format := "bestaudio/best";
     outtmpl := os_path_join tmp "output.%(ext)s";
     merge_output_format := None;
     quiet := true;
     postprocessor_args := None;
     postprocessors :=
       Some [ {| key := "FFmpegExtractAudio";
                 preferredcodec := target_codec;
                 preferredquality := str_of_int (int_or target_quality_kbps 192) |} ] |}.

Section Downloaders.
(** [tempfile] picks the name of the new directory; the extractor is an
    opaque collaborator.  A run of the extractor either returns or raises,
    and leaves some files in the directory its output template points into. *)
Variable mkdtemp : gmap string Dir → string.
Variable extractor : YdlOpts → list string → Result unit * Dir.

(** [with YoutubeDL(ydl_opts) as ydl: ydl.download(urls)], the output
    template pointing into [tmp]. *)
Definition YoutubeDL_download (tmp : string) (ydl_opts : YdlOpts)
    (urls : list string) : M unit :=
  λ w, let '(r, files) := extractor ydl_opts urls in
       (r, {| scratch := <[tmp := files]> (scratch w);
              calls := calls w ++ [(ydl_opts, urls)] |}).

(** [read_first_file_by_prefix] as a step of a download. *)
Definition read_output (folder prefix : string) : M Payload :=
  λ w, (read_first_file_by_prefix (scratch w) folder prefix, w).

(** [with tempfile.TemporaryDirectory() as tmp: body]: the directory is
    created empty, and removed when the block is left, normally or by an
    exception. *)
Definition TemporaryDirectory {A} (body : string → M A) : M A :=
  λ w, let tmp := mkdtemp (scratch w) in
       let '(r, w') := body tmp {| scratch := <[tmp := []]> (scratch w);
                                   calls := calls w |} in
       (r, {| scratch := delete tmp (scratch w'); calls := calls w' |}).

Definition download_video (url : string) (height : option Z) : M Payload :=
  TemporaryDirectory (λ tmp,
    let ydl_opts := video_ydl_opts tmp height in
    let* status := YoutubeDL_download tmp ydl_opts [url] in
    let* out := read_output tmp "output." in
    ret out).

Definition download_audio (url : string) (target_codec : string)
    (target_quality_kbps : option Z) : M Payload :=
  TemporaryDirectory (λ tmp,
    let ydl_opts := audio_ydl_opts tmp target_codec target_quality_kbps in
    let* status := YoutubeDL_download tmp ydl_opts [url] in
    let* out := read_output tmp "output." in
    ret out).
End Downloaders.

(** The format expressions handed to the extractor so far. *)
Definition formats_handed (w : World) : list string :=
  (λ c, format c.1) <$> calls w.

(** The post-processor lists handed to the extractor so far. *)
Definition postprocessors_handed (w : World) : list (option (list PostProcessor)) :=
  (λ c, postprocessors c.1) <$> calls w.

(** [c in s] for a one-character [c]. *)
Fixpoint contains_char (c : ascii) (s : string) : bool :=
  match s with
  | EmptyString => false
  | String d s' => (Ascii.eqb d c || contains_char c s')%bool
  end.

(** [s.isascii()]: every character has a code below 128. *)
Fixpoint isascii (s : string) : bool :=
  match s with
  | EmptyString => true
  | String c s' => ((nat_of_ascii c <? 128)%nat && isascii s')%bool
  end.

(** ** Presentation layer *)

(** [s.replace(c, "")] for a one-character [c]: every occurrence goes. *)
Fixpoint remove_char (c : ascii) (s : string) : string :=
  match s with
  | EmptyString => EmptyString
  | String d s' =>
      if Ascii.eqb d c then remove_char c s' else String d (remove_char c s')
  end.

(** [int(s)] on plain decimal text, an optional minus sign followed by
    digits, which is what [str] produces; [None] stands for [ValueError].
    Python also accepts blanks around the number, a plus sign and
    underscores between digits: such text is outside this model. *)
Definition int_of_str (s : string) : option Z :=
  Z.of_int <$> NilZero.int_of_string s.

(** The options of the resolution picker. *)
Definition height_labels (heights : list Z) : list string :=
  "Best available" :: ((λ h, str_of_int h ++ "p") <$> heights).

(** The height selected by a label of the picker; the outer [None] stands
    for the [ValueError] of [int]. *)
Definition sel_height_of_label (sel_label : string) : option (option Z) :=
  if String.eqb sel_label "Best available" then Some None
  else Some <$> int_of_str (remove_char "p" sel_label).

(** [sorted(xs)] on strings: a stable sort, smaller strings first. *)
Fixpoint insert_asc (x : string) (l : list string) : list string :=
  match l with
  | [] => [x]
  | y :: l' => if String.ltb y x then y :: insert_asc x l' else x :: l
  end.

Definition sorted_asc (l : list string) : list string :=
  foldr insert_asc [] l.

(** [xs.index(x)]: the first position of [x]; [None] stands for
    [ValueError]. *)
Fixpoint index (x : string) (xs : list string) : option nat :=
  match xs with
  | [] => None
  | y :: ys => if String.eqb y x then Some 0%nat else S <$> index x ys
  end.

Definition default_codec : string := "m4a".

Section AudioPage.
(** The order in which the set of codecs is iterated, as for the selector. *)
Variable iter_codecs : gset string → list string.

(** The options of the codec picker. *)
Definition codecs_of (audio_formats : list AudioOpt) : list string :=
  sorted_asc
    (iter_codecs (list_to_set (fst <$> audio_formats) ∪ list_to_set ["mp3"; "m4a"])).
End AudioPage.

(** The preselected position of the codec picker. *)
Definition codec_index (codecs : list string) : option nat :=
  if bool_decide (default_codec ∈ codecs) then index default_codec codecs
  else Some 0%nat.

(** The options of the bitrate slider. *)
Definition quality_options : list Z := [320; 256; 192; 160; 128; 96; 64].

(** What a handler puts on the page. *)
Inductive Widget :=
  | StSpinner (text : string)
  | StSuccess (body : string)
  | StError (body : string)
  | StDownloadButton (label : string) (data : list Byte.byte)
      (file_name mime : string).

(** [str(e)] and the [{e}] field of an f-string, for an exception. *)
Definition str_of_exn (e : exn) : string :=
  match e with
  | FileNotFoundError msg => msg
  | DownloadError msg => msg
  end.

Section Handlers.
Variable mkdtemp : gmap string Dir → string.
Variable extractor : YdlOpts → list string → Result unit * Dir.

(** What the [Download Video] button does. *)
Definition on_download_video (url : string) (sel_height : option Z)
    (w : World) : list Widget * World :=
  match download_video mkdtemp extractor url sel_height w with
  | (Ok (data, filename, mime), w') =>
      ([StSpinner "Downloading video...";
        StSuccess "Video ready!";
        StDownloadButton ("Save " ++ filename) data filename mime], w')
  | (Raise e, w') =>
      ([StSpinner "Downloading video...";
        StError ("Download failed: " ++ str_of_exn e)], w')
  end.

(** What the [Download Audio] button does. *)
Definition on_download_audio (url : string) (sel_codec : string)
    (sel_quality : Z) (w : World) : list Widget * World :=
  match download_audio mkdtemp extractor url sel_codec (Some sel_quality) w with
  | (Ok (data, filename, mime), w') =>
      ([StSpinner "Downloading audio...";
        StSuccess "Audio ready!";
        StDownloadButton ("Save " ++ filename) data filename mime], w')
  | (Raise e, w') =>
      ([StSpinner "Downloading audio...";
        StError ("Download failed: " ++ str_of_exn e)], w')
  end.
End Handlers.

(** ** Sample inputs

    Concrete streams, directories and collaborators on which the theorems
    below are exercised. *)

Definition mk_info (fmts : list Format) : Info :=
  {| title := None; formats := Some fmts |}.

Definition vp9_1080 : Format :=
  {| ext := Some "webm"; vcodec := Some "vp9"; acodec := Some "none";
     height := Some 1080; abr := None |}.

Definition audio_720 : Format :=
  {| ext := Some "m4a"; vcodec := Some "none"; acodec := Some "mp4a";
     height := Some 720; abr := Some (PyFloat (129478 # 1000)) |}.

Definition opus_160 : Format :=
  {| ext := Some "webm"; vcodec := Some "none"; acodec := Some "opus";
     height := None; abr := Some (PyInt 160) |}.

Definition muted_audio : Format :=
  {| ext := None; vcodec := Some "none"; acodec := Some "none";
     height := None; abr := None |}.

Definition h264_only : Format :=
  {| ext := None; vcodec := Some "h264"; acodec := None;
     height := None; abr := None |}.

(** A stream without a ["vcodec"] key that still reports a height. *)
Definition bare_720 : Format :=
  {| ext := Some "mp4"; vcodec := None; acodec := None;
     height := Some 720; abr := None |}.

(** An audio-only stream whose ["abr"] key is present and holds [0]. *)
Definition opus_abr0 : Format :=
  {| ext := Some "webm"; vcodec := Some "none"; acodec := Some "opus";
     height := None; abr := Some (PyInt 0) |}.

(** An audio-only stream without a container extension. *)
Definition opus_noext : Format :=
  {| ext := None; vcodec := Some "none"; acodec := Some "opus";
     height := None; abr := Some (PyInt 96) |}.

Definition empty_world : World := {| scratch := ∅; calls := [] |}.

(** A world in which another download has left a directory behind. *)
Definition busy_world : World :=
  {| scratch := {[ "/tmp/tmpother" := [("output.mkv", [Byte.x1a; Byte.x45])] ]};
     calls := [] |}.

Definition sample_mkdtemp : gmap string Dir → string := λ _, "/tmp/tmpk3x9".

Definition sample_url : string := "https://example.org/watch?v=abc".

(** An extractor that writes a merged MP4 next to a leftover part file. *)
Definition mp4_extractor : YdlOpts → list string → Result unit * Dir :=
  λ _ _, (Ok (), [("video.part", [Byte.x00]);
                  ("output.mp4", [Byte.x00; Byte.x01; Byte.x02])]).

(** An extractor that fails. *)
Definition failing_extractor : YdlOpts → list string → Result unit * Dir :=
  λ _ _, (Raise (DownloadError "Unsupported URL"), []).

(** An extractor that reports success but writes nothing. *)
Definition silent_extractor : YdlOpts → list string → Result unit * Dir :=
  λ _ _, (Ok (), []).

Definition sample_dir : Dir :=
  [("notes.txt", [Byte.x68; Byte.x69]); ("output.MKV", [Byte.x1a]);
   ("output.mp3", [Byte.x49])].

(** A directory in which the output carries a format id before its
    extension. *)
Definition parts_dir : Dir :=
  [("cover.jpg", [Byte.xff]); ("output.f137.mp4", [Byte.x00; Byte.x18]);
   ("output.f251.webm", [Byte.x1a])].

(** An audio-only stream that reports a negative average bitrate. *)
Definition mp3_neg3 : Format :=
  {| ext := Some "mp3"; vcodec := Some "none"; acodec := Some "mp3";
     height := None; abr := Some (PyInt (-3)) |}.

(** An audio-only stream without an average bitrate. *)
Definition m4a_noabr : Format :=
  {| ext := Some "m4a"; vcodec := Some "none"; acodec := Some "mp4a";
     height := None; abr := None |}.

(** An audio-only stream whose average bitrate is below one. *)
Definition ogg_half : Format :=
  {| ext := Some "ogg"; vcodec := Some "none"; acodec := Some "vorbis";
     height := None; abr := Some (PyFloat (1 # 2)) |}.

(** Another draw of the temporary directory name. *)
Definition other_mkdtemp : gmap string Dir → string := λ _, "/tmp/tmpq7w2".

(** * Theorems *)

(** ** The stable descending sort *)

Section SortedDesc.
Context {A : Type} (k : A → Z).

Lemma insert_desc_perm x l : insert_desc k x l ≡ₚ x :: l.
Proof.
  induction l as [|y l IH]; simpl; [done|].
  destruct (k x <? k y); [|done].
  rewrite IH. apply Permutation_swap.
Qed.

Lemma sorted_desc_perm l : sorted_desc k l ≡ₚ l.
Proof.
  induction l as [|x l IH]; simpl; [done|].
  rewrite insert_desc_perm. by f_equiv.
Qed.

Lemma insert_desc_sorted x l :
  StronglySorted (λ a b, k b ≤ k a) l →
  StronglySorted (λ a b, k b ≤ k a) (insert_desc k x l).
Proof.
  induction 1 as [|y l Hl IH Hy]; simpl.
  - repeat constructor.
  - destruct (Z.ltb_spec (k x) (k y)) as [Hlt|Hge].
    + constructor; [done|].
      rewrite insert_desc_perm. constructor; [lia|done].
    + constructor; [by constructor|].
      constructor; [lia|].
      eapply Forall_impl; [exact Hy|]. simpl. intros; lia.
Qed.

Lemma sorted_desc_sorted l :
  StronglySorted (λ a b, k b ≤ k a) (sorted_desc k l).
Proof.
  induction l as [|x l IH]; simpl; [constructor|].
  by apply insert_desc_sorted.
Qed.

Lemma sorted_desc_elem_of x l : x ∈ sorted_desc k l ↔ x ∈ l.
Proof. by rewrite sorted_desc_perm. Qed.

Lemma sorted_desc_NoDup l : NoDup l → NoDup (sorted_desc k l).
Proof. by rewrite sorted_desc_perm. Qed.
End SortedDesc.

(** A list of distinct integers sorted in descending order is strictly
    descending. *)
Lemma descending_NoDup_strict (l : list Z) :
  StronglySorted (λ a b, b ≤ a) l → NoDup l → StronglySorted (λ a b, b < a) l.
Proof.
  induction 1 as [|x l Hl IH Hx]; intros Hnd; [constructor|].
  apply NoDup_cons in Hnd as [Hnotin Hnd].
  constructor; [by apply IH|].
  apply Forall_forall. intros y Hy.
  rewrite Forall_forall in Hx. specialize (Hx y Hy).
  assert (y ≠ x) by (intros ->; done). lia.
Qed.

Lemma StronglySorted_weaken {A} (R1 R2 : relation A) (l : list A) :
  (∀ x y, R1 x y → R2 x y) → StronglySorted R1 l → StronglySorted R2 l.
Proof.
  intros HR. induction 1 as [|x l Hl IH Hx]; constructor; [done|].
  eapply Forall_impl; [exact Hx|]. apply HR.
Qed.

(** In a strongly sorted list, an earlier entry is related to every later one. *)
Lemma StronglySorted_lookup_lt {A} (R : relation A) (l : list A) i j x y :
  StronglySorted R l → l !! i = Some x → l !! j = Some y → (i < j)%nat → R x y.
Proof.
  intros Hl. revert i j. induction Hl as [|z l Hl IH Hz]; intros i j Hi Hj Hij.
  - by rewrite lookup_nil in Hi.
  - destruct j as [|j]; [lia|]. simpl in Hj.
    destruct i as [|i]; simpl in Hi.
    + injection Hi as ->. rewrite Forall_forall in Hz.
      apply Hz. by eapply list_elem_of_lookup_2.
    + apply (IH i j); [done|done|lia].
Qed.

(** ** What the two collecting loops gather *)

(** When a format adds its height to the set. *)
Lemma add_height_elem_of heights f h :
  h ∈ add_height heights f ↔
  h ∈ heights ∨ (vcodec f ≠ Some "none" ∧ height f = Some h ∧ h ≠ 0).
Proof.
  unfold add_height, truthy_int.
  destruct (height f) as [h'|] eqn:Hh; [|naive_solver].
  case_bool_decide as Hv; simpl.
  - destruct (Z.eqb_spec h' 0) as [->|Hne]; simpl.
    + naive_solver.
    + rewrite elem_of_union, elem_of_singleton. naive_solver.
  - naive_solver.
Qed.

Lemma foldl_add_height_elem_of fmts heights h :
  h ∈ foldl add_height heights fmts ↔
  h ∈ heights ∨
  ∃ f, f ∈ fmts ∧ vcodec f ≠ Some "none" ∧ height f = Some h ∧ h ≠ 0.
Proof.
  revert heights. induction fmts as [|f fmts IH]; intros heights; simpl.
  - split; [by left|]. intros [?|(f & Hf & _)]; [done|]. by apply elem_of_nil in Hf.
  - rewrite IH, add_height_elem_of. split.
    + intros [[?|?]|(g & ? & ?)]; [by left| |].
      * right. exists f. split; [left|done].
      * right. exists g. split; [by right|done].
    + intros [?|(g & Hg & ?)]; [by left; left|].
      apply elem_of_cons in Hg as [->|Hg]; [by left; right|].
      right. by exists g.
Qed.

Lemma collect_heights_elem_of fmts h :
  h ∈ collect_heights fmts ↔
  ∃ f, f ∈ fmts ∧ vcodec f ≠ Some "none" ∧ height f = Some h ∧ h ≠ 0.
Proof.
  unfold collect_heights. rewrite foldl_add_height_elem_of.
  split; [intros [H|H]; [by apply not_elem_of_empty in H|done]|by right].
Qed.

(** The guard of the audio loop, spelled out. *)
Lemma audio_only_spec f :
  audio_only f = true ↔
  vcodec f = Some "none" ∧ acodec f ≠ None ∧ acodec f ≠ Some "none".
Proof.
  unfold audio_only.
  rewrite andb_true_iff, negb_true_iff, orb_false_iff,
    bool_decide_eq_true, !bool_decide_eq_false.
  tauto.
Qed.

Lemma foldl_add_audio fmts audio :
  foldl add_audio audio fmts =
  (audio ++ (audio_entry <$> filter (λ f, audio_only f = true) fmts))%list.
Proof.
  revert audio. induction fmts as [|f fmts IH]; intros audio; simpl.
  - by rewrite app_nil_r.
  - rewrite IH. unfold add_audio, filter; simpl.
    destruct (decide (audio_only f = true)) as [E|E].
    + rewrite E. simpl. by rewrite <- app_assoc.
    + apply not_true_is_false in E. by rewrite E.
Qed.

Lemma collect_audio_elem_of fmts x :
  x ∈ collect_audio fmts ↔
  ∃ f, f ∈ fmts ∧ audio_only f = true ∧ x = audio_entry f.
Proof.
  unfold collect_audio. rewrite foldl_add_audio. simpl.
  rewrite list_elem_of_fmap. setoid_rewrite list_elem_of_filter.
  naive_solver.
Qed.

(** The sort key reads an unknown bitrate as [0]. *)
Lemma abr_key_default x : abr_key x = default 0 x.2.
Proof.
  unfold abr_key, int_or, truthy_int. destruct x as [e [b|]]; simpl; [|done].
  by destruct (Z.eqb_spec b 0) as [->|].
Qed.

(** Falsy numbers are the zeros. *)
Lemma truthy_num_false n : truthy_num n = false ↔ is_zero n.
Proof.
  destruct n as [z|q]; simpl; unfold truthy_int, Qeq; simpl;
    rewrite negb_false_iff, Z.eqb_eq; lia.
Qed.

(** ** The format selector *)

Section SelectorFacts.
Variable iter_heights : gset Z → list Z.
Variable iter_audio : gset AudioOpt → list AudioOpt.
(** Whatever the order, iterating over a set visits each element once. *)
Hypothesis iter_heights_perm : ∀ X, iter_heights X ≡ₚ elements X.
Hypothesis iter_audio_perm : ∀ X, iter_audio X ≡ₚ elements X.

Lemma resolutions_elem_of info h :
  h ∈ list_available_resolutions iter_heights info ↔
  ∃ f, f ∈ info_formats info ∧ vcodec f ≠ Some "none" ∧ height f = Some h ∧ h ≠ 0.
Proof.
  unfold list_available_resolutions.
  rewrite sorted_desc_elem_of, iter_heights_perm, elem_of_elements.
  apply collect_heights_elem_of.
Qed.

Lemma resolutions_NoDup info : NoDup (list_available_resolutions iter_heights info).
Proof.
  unfold list_available_resolutions. apply sorted_desc_NoDup.
  rewrite iter_heights_perm. apply NoDup_elements.
Qed.

Lemma audio_formats_elem_of info x :
  x ∈ list_audio_formats iter_audio info ↔
  ∃ f, f ∈ info_formats info ∧ audio_only f = true ∧ x = audio_entry f.
Proof.
  unfold list_audio_formats.
  rewrite sorted_desc_elem_of, iter_audio_perm, elem_of_elements, elem_of_list_to_set.
  apply collect_audio_elem_of.
Qed.

Lemma audio_formats_NoDup info : NoDup (list_audio_formats iter_audio info).
Proof.
  unfold list_audio_formats. apply sorted_desc_NoDup.
  rewrite iter_audio_perm. apply NoDup_elements.
Qed.

(** C2: for every stream list, [list_available_resolutions] returns strictly
    descending, duplicate-free integers, each of them the height of an input
    stream whose video codec is not ["none"]; on the empty stream list it
    returns the empty list. *)
Theorem resolutions_strictly_descending info :
  let r := list_available_resolutions iter_heights info in
  StronglySorted (λ a b, b < a) r ∧
  NoDup r ∧
  (∀ h, h ∈ r →
     ∃ f, f ∈ info_formats info ∧ height f = Some h ∧ vcodec f ≠ Some "none") ∧
  (info_formats info = [] → r = []).
Proof.
  intros r. split_and!.
  - apply descending_NoDup_strict; [|apply resolutions_NoDup].
    apply (sorted_desc_sorted id).
  - apply resolutions_NoDup.
  - intros h Hh. apply resolutions_elem_of in Hh as (f & ? & ? & ? & ?).
    by exists f.
  - intros Hnil. destruct r as [|h r'] eqn:Hr; [done|].
    assert (h ∈ list_available_resolutions iter_heights info) as Hh
      by (fold r; rewrite Hr; left).
    apply resolutions_elem_of in Hh as (f & Hf & _).
    rewrite Hnil in Hf. by apply elem_of_nil in Hf.
Qed.

(** C3, as the code has it: a height is listed only when it is the known,
    non-zero height of a stream whose video codec is not ["none"]; a missing
    video codec counts as not ["none"], so a stream without that attribute
    does contribute its height. *)
Theorem resolutions_inclusion_guard info :
  (∀ h, h ∈ list_available_resolutions iter_heights info ↔
     ∃ f, f ∈ info_formats info ∧ vcodec f ≠ Some "none" ∧
          height f = Some h ∧ h ≠ 0) ∧
  (∀ f h, f ∈ info_formats info → vcodec f = None → height f = Some h → h ≠ 0 →
     h ∈ list_available_resolutions iter_heights info).
Proof.
  split; [apply resolutions_elem_of|].
  intros f h Hf Hv Hh Hne. apply resolutions_elem_of.
  exists f. by rewrite Hv.
Qed.

(** C4, as the code has it: for every stream list, [list_audio_formats]
    returns pairwise distinct (ext, bitrate) pairs, each built from an input
    stream whose video codec is ["none"] and whose audio codec is neither
    missing nor ["none"]; the list is sorted by bitrate, largest first, an
    unknown bitrate counting as [0]: a pair with an unknown bitrate comes
    after every pair with a positive bitrate and before every pair with a
    negative one, so it is last only among positive bitrates; on the empty
    stream list the result is the empty list. *)
Theorem audio_formats_distinct_sorted info :
  let r := list_audio_formats iter_audio info in
  NoDup r ∧
  (∀ x, x ∈ r →
     ∃ f, f ∈ info_formats info ∧ vcodec f = Some "none" ∧
          acodec f ≠ None ∧ acodec f ≠ Some "none" ∧ x = audio_entry f) ∧
  StronglySorted (λ x y, default 0 y.2 ≤ default 0 x.2) r ∧
  (∀ i j x y b, r !! i = Some x → r !! j = Some y → (i < j)%nat →
     x.2 = None → y.2 = Some b → b ≤ 0) ∧
  (∀ i j x y b, r !! i = Some x → r !! j = Some y → (i < j)%nat →
     x.2 = Some b → y.2 = None → 0 ≤ b) ∧
  (info_formats info = [] → r = []).
Proof.
  intros r.
  assert (StronglySorted (λ x y, default 0 y.2 ≤ default 0 x.2) r) as Hsorted.
  { eapply StronglySorted_weaken; [|apply (sorted_desc_sorted abr_key)].
    intros x y. simpl. by rewrite !abr_key_default. }
  split_and!.
  - apply audio_formats_NoDup.
  - intros x Hx. apply audio_formats_elem_of in Hx as (f & Hf & Ha & ->).
    apply audio_only_spec in Ha as (? & ? & ?). by exists f.
  - exact Hsorted.
  - intros i j x y b Hi Hj Hij Hx Hy.
    pose proof (StronglySorted_lookup_lt _ r i j x y Hsorted Hi Hj Hij) as Hle.
    simpl in Hle.
    rewrite Hx, Hy in Hle. exact Hle.
  - intros i j x y b Hi Hj Hij Hx Hy.
    pose proof (StronglySorted_lookup_lt _ r i j x y Hsorted Hi Hj Hij) as Hle.
    simpl in Hle.
    rewrite Hx, Hy in Hle. exact Hle.
  - intros Hnil. destruct r as [|x r'] eqn:Hr; [done|].
    assert (x ∈ list_audio_formats iter_audio info) as Hx
      by (fold r; rewrite Hr; left).
    apply audio_formats_elem_of in Hx as (f & Hf & _).
    rewrite Hnil in Hf. by apply elem_of_nil in Hf.
Qed.

(** C5, as the code has it: for every audio-only stream that passes the
    guard, the pair built from it is listed; when the average bitrate is
    present and not zero the pair carries it coerced to an integer, and the
    pair's bitrate is unknown exactly when the attribute is missing or zero. *)
Theorem audio_bitrate_coercion info f :
  f ∈ info_formats info → audio_only f = true →
  audio_entry f ∈ list_audio_formats iter_audio info ∧
  (∀ a, abr f = Some a → ¬ is_zero a →
     (audio_entry f).2 = Some (int_of_num a)) ∧
  ((audio_entry f).2 = None ↔
     abr f = None ∨ ∃ a, abr f = Some a ∧ is_zero a).
Proof.
  intros Hf Ha. split_and!.
  - apply audio_formats_elem_of. by exists f.
  - intros a Habr Hnz. unfold audio_entry; simpl. rewrite Habr.
    destruct (truthy_num a) eqn:Ht; [done|].
    by apply truthy_num_false in Ht.
  - unfold audio_entry; simpl. destruct (abr f) as [a|]; [|by split; [left|]].
    destruct (truthy_num a) eqn:Ht.
    + split; [done|]. intros [?|(a' & [= <-] & Hz)]; [done|].
      apply truthy_num_false in Hz. congruence.
    + split; [|done]. intros _. right. exists a.
      by rewrite <- truthy_num_false.
Qed.

(** C10: an audio-only stream whose extension is missing or empty is listed
    with the extension ["m4a"]. *)
Theorem audio_default_extension info f :
  f ∈ info_formats info →
  vcodec f = Some "none" → acodec f ≠ None → acodec f ≠ Some "none" →
  ext f = None ∨ ext f = Some "" →
  ∃ b, audio_entry f = ("m4a", b) ∧
       ("m4a", b) ∈ list_audio_formats iter_audio info.
Proof.
  intros Hf Hv Ha1 Ha2 Hext.
  exists (audio_entry f).2.
  assert (audio_entry f = ("m4a", (audio_entry f).2)) as Heq.
  { unfold audio_entry; simpl. by destruct Hext as [-> | ->]. }
  split; [done|]. rewrite <- Heq.
  apply audio_formats_elem_of. exists f.
  by rewrite audio_only_spec.
Qed.
End SelectorFacts.

(** The two selector examples of the specification, with the sets iterated
    in the order of [elements]. *)
Example resolutions_example :
  list_available_resolutions elements (mk_info [vp9_1080; vp9_1080; audio_720]) = [1080].
Proof. vm_compute. reflexivity. Qed.

Example audio_formats_example :
  list_audio_formats elements (mk_info [opus_160; muted_audio; h264_only])
  = [("webm", Some 160)].
Proof. vm_compute. reflexivity. Qed.

Example audio_formats_float_bitrate :
  list_audio_formats elements (mk_info [audio_720; opus_160; opus_noext])
  = [("webm", Some 160); ("m4a", Some 129); ("m4a", Some 96)].
Proof. vm_compute. reflexivity. Qed.

Lemma resolutions_strictly_descending_witness :
  (∀ X : gset Z, elements X ≡ₚ elements X) ∧
  let r := list_available_resolutions elements
             (mk_info [vp9_1080; vp9_1080; audio_720]) in
  StronglySorted (λ a b, b < a) r ∧
  NoDup r ∧
  (∀ h, h ∈ r →
     ∃ f, f ∈ [vp9_1080; vp9_1080; audio_720] ∧ height f = Some h ∧
          vcodec f ≠ Some "none") ∧
  ([vp9_1080; vp9_1080; audio_720] = [] → r = []).
Proof.
  split; [reflexivity|].
  apply (resolutions_strictly_descending elements
           (λ X, reflexivity (elements X))
           (mk_info [vp9_1080; vp9_1080; audio_720])).
Defined.

(** The claim C3 fails on a stream that has no video codec attribute: its
    height is listed. *)
Lemma resolutions_absent_vcodec_listed :
  vcodec bare_720 = None ∧
  list_available_resolutions elements (mk_info [bare_720]) = [720].
Proof. split; [reflexivity|]. vm_compute. reflexivity. Qed.

Lemma resolutions_inclusion_guard_witness :
  (∀ X : gset Z, elements X ≡ₚ elements X) ∧
  (∀ h, h ∈ list_available_resolutions elements (mk_info [bare_720; vp9_1080]) ↔
     ∃ f, f ∈ [bare_720; vp9_1080] ∧ vcodec f ≠ Some "none" ∧
          height f = Some h ∧ h ≠ 0) ∧
  (∀ f h, f ∈ [bare_720; vp9_1080] → vcodec f = None → height f = Some h →
     h ≠ 0 → h ∈ list_available_resolutions elements (mk_info [bare_720; vp9_1080])).
Proof.
  split; [reflexivity|].
  apply (resolutions_inclusion_guard elements
           (λ X, reflexivity (elements X)) (mk_info [bare_720; vp9_1080])).
Defined.

(** The claim C4 fails where it glosses the place of an unknown bitrate as
    the last one: a pair with an unknown bitrate precedes a pair with a
    negative bitrate, and, depending on the order in which the set is
    iterated, a pair with the bitrate [0]. *)
Lemma audio_unknown_bitrate_not_last :
  list_audio_formats elements (mk_info [mp3_neg3; m4a_noabr])
  = [("m4a", None); ("mp3", Some (-3))] ∧
  last (list_audio_formats elements (mk_info [mp3_neg3; m4a_noabr]))
  ≠ Some ("m4a", None) ∧
  list_audio_formats elements (mk_info [ogg_half; m4a_noabr])
  = [("m4a", None); ("ogg", Some 0)] ∧
  list_audio_formats (λ X, reverse (elements X)) (mk_info [ogg_half; m4a_noabr])
  = [("ogg", Some 0); ("m4a", None)].
Proof. vm_compute. split_and!; [reflexivity|discriminate|reflexivity..]. Qed.

Lemma audio_formats_distinct_sorted_witness :
  (∀ X : gset AudioOpt, elements X ≡ₚ elements X) ∧
  let r := list_audio_formats elements
             (mk_info [mp3_neg3; audio_720; opus_160; m4a_noabr; opus_160;
                       vp9_1080]) in
  NoDup r ∧
  (∀ x, x ∈ r →
     ∃ f, f ∈ [mp3_neg3; audio_720; opus_160; m4a_noabr; opus_160; vp9_1080] ∧
          vcodec f = Some "none" ∧
          acodec f ≠ None ∧ acodec f ≠ Some "none" ∧ x = audio_entry f) ∧
  StronglySorted (λ x y, default 0 y.2 ≤ default 0 x.2) r ∧
  (∀ i j x y b, r !! i = Some x → r !! j = Some y → (i < j)%nat →
     x.2 = None → y.2 = Some b → b ≤ 0) ∧
  (∀ i j x y b, r !! i = Some x → r !! j = Some y → (i < j)%nat →
     x.2 = Some b → y.2 = None → 0 ≤ b) ∧
  ([mp3_neg3; audio_720; opus_160; m4a_noabr; opus_160; vp9_1080] = [] →
     r = []).
Proof.
  split; [reflexivity|].
  apply (audio_formats_distinct_sorted elements
           (λ X, reflexivity (elements X))
           (mk_info [mp3_neg3; audio_720; opus_160; m4a_noabr; opus_160;
                     vp9_1080])).
Defined.

Example audio_formats_mixed_bitrates :
  list_audio_formats elements
    (mk_info [mp3_neg3; audio_720; opus_160; m4a_noabr; opus_160; vp9_1080])
  = [("webm", Some 160); ("m4a", Some 129); ("m4a", None); ("mp3", Some (-3))].
Proof. vm_compute. reflexivity. Qed.

(** The claim C5 fails on a stream whose average bitrate is present and
    zero: the pair built from it has an unknown bitrate. *)
Lemma audio_bitrate_zero_unknown :
  abr opus_abr0 = Some (PyInt 0) ∧
  audio_only opus_abr0 = true ∧
  list_audio_formats elements (mk_info [opus_abr0]) = [("webm", None)] ∧
  list_audio_formats elements (mk_info [opus_abr0])
  ≠ [("webm", Some (int_of_num (PyInt 0)))].
Proof.
  split_and!; [reflexivity|reflexivity| |]; vm_compute; [reflexivity|discriminate].
Qed.

Lemma audio_bitrate_coercion_witness :
  (∀ X : gset AudioOpt, elements X ≡ₚ elements X) ∧
  audio_720 ∈ [opus_160; audio_720] ∧ audio_only audio_720 = true ∧
  audio_entry audio_720 ∈ list_audio_formats elements (mk_info [opus_160; audio_720]) ∧
  (∀ a, abr audio_720 = Some a → ¬ is_zero a →
     (audio_entry audio_720).2 = Some (int_of_num a)) ∧
  ((audio_entry audio_720).2 = None ↔
     abr audio_720 = None ∨ ∃ a, abr audio_720 = Some a ∧ is_zero a).
Proof.
  assert (audio_720 ∈ [opus_160; audio_720]) as Hin by (right; left).
  split; [reflexivity|]. split; [exact Hin|]. split; [reflexivity|].
  apply (audio_bitrate_coercion elements (λ X, reflexivity (elements X))
           (mk_info [opus_160; audio_720]) audio_720 Hin eq_refl).
Defined.

Lemma audio_default_extension_witness :
  (∀ X : gset AudioOpt, elements X ≡ₚ elements X) ∧
  opus_noext ∈ [opus_noext] ∧
  vcodec opus_noext = Some "none" ∧ acodec opus_noext ≠ None ∧
  acodec opus_noext ≠ Some "none" ∧
  (ext opus_noext = None ∨ ext opus_noext = Some "") ∧
  ∃ b, audio_entry opus_noext = ("m4a", b) ∧
       ("m4a", b) ∈ list_audio_formats elements (mk_info [opus_noext]).
Proof.
  assert (opus_noext ∈ [opus_noext]) as Hin by left.
  assert (acodec opus_noext ≠ None) as H1 by discriminate.
  assert (acodec opus_noext ≠ Some "none") as H2 by discriminate.
  split; [reflexivity|].
  split; [exact Hin|]. split; [reflexivity|].
  split; [exact H1|]. split; [exact H2|]. split; [by left|].
  apply (audio_default_extension elements (λ X, reflexivity (elements X))
           (mk_info [opus_noext]) opus_noext Hin eq_refl H1 H2 (or_introl eq_refl)).
Defined.

(** ** The transfer helpers *)

Lemma startswith_spec s p : startswith s p = true ↔ ∃ rest, s = p ++ rest.
Proof.
  unfold startswith. revert s. induction p as [|c p IH]; intros s.
  - split; [by exists s|]. intros _. by destruct s.
  - destruct s as [|d s].
    + split; [done|]. by intros [rest ?].
    + change (String.prefix (String c p) (String d s))
        with (if Ascii.ascii_dec c d then String.prefix p s else false).
      destruct (Ascii.ascii_dec c d) as [->|Hne].
      * rewrite IH. split; intros [rest Hrest]; exists rest.
        -- by rewrite Hrest.
        -- by injection Hrest.
      * split; [done|]. intros [rest Hrest]. injection Hrest as ? _. congruence.
Qed.

Example mime_examples :
  detect_mime_from_ext "mp3" = "audio/mpeg" ∧
  detect_mime_from_ext "mkv" = "video/x-matroska" ∧
  detect_mime_from_ext "MKV" = "video/x-matroska" ∧
  detect_mime_from_ext "xyz" = "application/octet-stream".
Proof. vm_compute. done. Qed.

(** The scan raises exactly when no name of the listing matches. *)
Lemma scan_listing_raises entries prefix :
  (∃ msg, scan_listing entries prefix = Raise (FileNotFoundError msg)) ↔
  Forall (λ e, startswith e.1 prefix = false) entries.
Proof.
  induction entries as [|[name data] entries IH]; simpl.
  - split; [constructor|]. by eexists.
  - destruct (startswith name prefix) eqn:Hp.
    + split; [by intros [? ?]|]. intros H. apply Forall_cons in H as [H _].
      simpl in H. congruence.
    + rewrite IH. split; [by constructor|]. by intros [_ ?]%Forall_cons.
Qed.

(** The scan returns the first matching file of the listing. *)
Lemma scan_listing_first before name data after prefix :
  Forall (λ e, startswith e.1 prefix = false) before →
  startswith name prefix = true →
  scan_listing (before ++ (name, data) :: after)%list prefix =
  Ok (data, name, detect_mime_from_ext (last_item (split "." name))).
Proof.
  intros Hb Hn. induction Hb as [|[n d] before Hnd _ IH]; simpl.
  - by rewrite Hn.
  - simpl in Hnd. by rewrite Hnd.
Qed.

(** A listing with a matching name splits at its first match. *)
Lemma first_match_split (entries : Dir) prefix :
  Exists (λ e, startswith e.1 prefix = true) entries →
  ∃ before name data after,
    entries = (before ++ (name, data) :: after)%list ∧
    Forall (λ e, startswith e.1 prefix = false) before ∧
    startswith name prefix = true.
Proof.
  induction entries as [|[n d] entries IH]; intros Hex.
  - by apply Exists_nil in Hex.
  - destruct (startswith n prefix) eqn:Hn.
    + exists [], n, d, entries. by repeat split.
    + apply Exists_cons in Hex as [Hex|Hex]; [simpl in Hex; congruence|].
      destruct (IH Hex) as (before & name & data & after & -> & Hb & Hm).
      exists ((n, d) :: before), name, data, after.
      repeat split; [|done]. by constructor.
Qed.

(** C7: for every directory and prefix, [read_first_file_by_prefix] raises
    [FileNotFoundError] exactly when no file of the directory has a name
    starting with the prefix (the stem ["output."] at both call sites); in
    particular it raises on an empty directory, and when a matching file
    exists it returns the bytes, the name and the MIME type of the first
    one. *)
Theorem output_scan_outcome (fs : gmap string Dir) folder entries prefix :
  fs !! folder = Some entries →
  let r := read_first_file_by_prefix fs folder prefix in
  ((∃ msg, r = Raise (FileNotFoundError msg)) ↔
     ∀ name data, (name, data) ∈ entries → ¬ ∃ rest, name = prefix ++ rest) ∧
  (entries = [] → ∃ msg, r = Raise (FileNotFoundError msg)) ∧
  ((∃ name data, (name, data) ∈ entries ∧ ∃ rest, name = prefix ++ rest) →
     ∃ before name data after,
       entries = (before ++ (name, data) :: after)%list ∧
       (∀ n d, (n, d) ∈ before → ¬ ∃ rest, n = prefix ++ rest) ∧
       (∃ rest, name = prefix ++ rest) ∧
       r = Ok (data, name, detect_mime_from_ext (last_item (split "." name)))).
Proof.
  intros Hfs r.
  assert (r = scan_listing entries prefix) as Hr
    by (subst r; unfold read_first_file_by_prefix; by rewrite Hfs).
  clearbody r. subst r.
  assert (∀ l : Dir,
            Forall (λ e, startswith e.1 prefix = false) l ↔
            ∀ name data, (name, data) ∈ l → ¬ ∃ rest, name = prefix ++ rest)
    as Hno.
  { intros l. rewrite Forall_forall. split.
    - intros H name data Hin Hex. apply startswith_spec in Hex.
      specialize (H _ Hin). simpl in H. congruence.
    - intros H [name data] Hin. simpl.
      destruct (startswith name prefix) eqn:Hp; [|done].
      apply startswith_spec in Hp. by destruct (H _ _ Hin). }
  split_and!.
  - by rewrite scan_listing_raises, Hno.
  - intros ->. by eexists.
  - intros (name & data & Hin & Hpre).
    destruct (first_match_split entries prefix)
      as (before & n & d & after & Heq & Hb & Hn).
    { apply Exists_exists. exists (name, data). split; [done|].
      by apply startswith_spec. }
    exists before, n, d, after. split_and!; [done| | |].
    + by apply Hno.
    + by apply startswith_spec.
    + rewrite Heq. by apply scan_listing_first.
Qed.

Lemma output_scan_outcome_witness :
  let fs : gmap string Dir := <["/tmp/tmpk3x9" := sample_dir]> ∅ in
  fs !! "/tmp/tmpk3x9" = Some sample_dir ∧
  read_first_file_by_prefix fs "/tmp/tmpk3x9" "output."
  = Ok ([Byte.x1a], "output.MKV", "video/x-matroska") ∧
  let r := read_first_file_by_prefix fs "/tmp/tmpk3x9" "output." in
  ((∃ msg, r = Raise (FileNotFoundError msg)) ↔
     ∀ name data, (name, data) ∈ sample_dir → ¬ ∃ rest, name = "output." ++ rest) ∧
  (sample_dir = [] → ∃ msg, r = Raise (FileNotFoundError msg)) ∧
  ((∃ name data, (name, data) ∈ sample_dir ∧ ∃ rest, name = "output." ++ rest) →
     ∃ before name data after,
       sample_dir = (before ++ (name, data) :: after)%list ∧
       (∀ n d, (n, d) ∈ before → ¬ ∃ rest, n = "output." ++ rest) ∧
       (∃ rest, name = "output." ++ rest) ∧
       r = Ok (data, name, detect_mime_from_ext (last_item (split "." name)))).
Proof.
  intros fs.
  assert (fs !! "/tmp/tmpk3x9" = Some sample_dir) as Hfs by (vm_compute; reflexivity).
  split; [exact Hfs|]. split; [vm_compute; reflexivity|].
  apply (output_scan_outcome fs "/tmp/tmpk3x9" sample_dir "output." Hfs).
Defined.

(** A scan over an empty directory, and over a missing one. *)
Example scan_empty_directory :
  read_first_file_by_prefix (<["/tmp/tmpk3x9" := []]> ∅) "/tmp/tmpk3x9" "output."
  = Raise (FileNotFoundError "Downloaded file not found.").
Proof. vm_compute. reflexivity. Qed.

(** ** The downloaders *)

Section DownloaderFacts.
Variable mkdtemp : gmap string Dir → string.
Variable extractor : YdlOpts → list string → Result unit * Dir.

(** One download, step by step: the directory is created, the extractor is
    called once with the options built for that directory, the output is
    scanned if the extractor returned, and the directory is removed. *)
Lemma download_steps (opts_of : string → YdlOpts) url w :
  TemporaryDirectory mkdtemp (λ tmp,
    let* status := YoutubeDL_download extractor tmp (opts_of tmp) [url] in
    let* out := read_output tmp "output." in
    ret out) w
  = let tmp := mkdtemp (scratch w) in
    let run := extractor (opts_of tmp) [url] in
    (match run.1 with
     | Ok _ => scan_listing run.2 "output."
     | Raise e => Raise e
     end,
     {| scratch := delete tmp (<[tmp := run.2]> (<[tmp := []]> (scratch w)));
        calls := calls w ++ [(opts_of tmp, [url])] |}).
Proof.
  unfold TemporaryDirectory, bind, YoutubeDL_download, read_output, ret,
    read_first_file_by_prefix; simpl.
  destruct (extractor (opts_of (mkdtemp (scratch w))) [url]) as [[[]|e] files];
    simpl; [|done].
  rewrite lookup_insert_eq. by destruct (scan_listing files "output.").
Qed.

Lemma download_video_steps url height w :
  download_video mkdtemp extractor url height w
  = let tmp := mkdtemp (scratch w) in
    let run := extractor (video_ydl_opts tmp height) [url] in
    (match run.1 with
     | Ok _ => scan_listing run.2 "output."
     | Raise e => Raise e
     end,
     {| scratch := delete tmp (<[tmp := run.2]> (<[tmp := []]> (scratch w)));
        calls := calls w ++ [(video_ydl_opts tmp height, [url])] |}).
Proof. apply (download_steps (λ tmp, video_ydl_opts tmp height)). Qed.

Lemma download_audio_steps url codec quality w :
  download_audio mkdtemp extractor url codec quality w
  = let tmp := mkdtemp (scratch w) in
    let run := extractor (audio_ydl_opts tmp codec quality) [url] in
    (match run.1 with
     | Ok _ => scan_listing run.2 "output."
     | Raise e => Raise e
     end,
     {| scratch := delete tmp (<[tmp := run.2]> (<[tmp := []]> (scratch w)));
        calls := calls w ++ [(audio_ydl_opts tmp codec quality, [url])] |}).
Proof. apply (download_steps (λ tmp, audio_ydl_opts tmp codec quality)). Qed.

(** Creating a fresh directory, filling it and removing it leaves the other
    directories as they were. *)
Lemma scratch_round_trip (m : gmap string Dir) tmp files :
  m !! tmp = None → delete tmp (<[tmp := files]> (<[tmp := []]> m)) = m.
Proof.
  intros Hfresh. apply map_eq. intros p.
  destruct (decide (tmp = p)) as [<-|Hne].
  - by rewrite lookup_delete_eq.
  - by rewrite lookup_delete_ne, !lookup_insert_ne.
Qed.

(** C1, as the code has it: for every call to [download_video] with a target
    height [h] other than [0], the format expression handed to the extractor
    is the three-tier fallback
    ["bestvideo[height=h]+bestaudio/best[height=h]/best"]; for every call
    with no target height it is ["bestvideo+bestaudio/best"]. *)
Theorem video_format_expression url h w :
  h ≠ 0 →
  formats_handed (download_video mkdtemp extractor url (Some h) w).2
  = (formats_handed w ++
     [("bestvideo[height=" ++ str_of_int h ++ "]+bestaudio/best[height="
         ++ str_of_int h ++ "]/best")%string])%list ∧
  formats_handed (download_video mkdtemp extractor url None w).2
  = (formats_handed w ++ ["bestvideo+bestaudio/best"])%list.
Proof.
  intros Hh. rewrite !download_video_steps. unfold formats_handed; simpl.
  rewrite !fmap_app; simpl. unfold truthy_int.
  by destruct (Z.eqb_spec h 0).
Qed.

(** C9: for the target height [0], [download_video] hands the extractor the
    unconstrained expression ["bestvideo+bestaudio/best"]; the whole call
    behaves as with no target height, and the exact-height expression for
    [0] is not what is built. *)
Theorem video_zero_height_unconstrained url w :
  formats_handed (download_video mkdtemp extractor url (Some 0) w).2
  = (formats_handed w ++ ["bestvideo+bestaudio/best"])%list ∧
  download_video mkdtemp extractor url (Some 0) w
  = download_video mkdtemp extractor url None w ∧
  video_format_selector (Some 0)
  ≠ "bestvideo[height=" ++ str_of_int 0 ++ "]+bestaudio/best[height="
      ++ str_of_int 0 ++ "]/best".
Proof.
  split_and!.
  - rewrite download_video_steps. unfold formats_handed; simpl.
    by rewrite fmap_app.
  - by rewrite !download_video_steps.
  - vm_compute. discriminate.
Qed.

(** C6, as the code has it: for every call to [download_audio], the extractor
    is handed the format expression ["bestaudio/best"] and exactly one
    post-processor, the audio extraction into the requested codec; its
    quality is the requested bitrate when one is given and is not [0], and
    [192] when no bitrate is given or the requested bitrate is [0]. *)
Theorem audio_extractor_config url codec quality w :
  ∃ q,
    formats_handed (download_audio mkdtemp extractor url codec quality w).2
    = (formats_handed w ++ ["bestaudio/best"])%list ∧
    postprocessors_handed (download_audio mkdtemp extractor url codec quality w).2
    = (postprocessors_handed w ++
       [Some [ {| key := "FFmpegExtractAudio";
                  preferredcodec := codec;
                  preferredquality := q |} ]])%list ∧
    (∀ b, quality = Some b → b ≠ 0 → q = str_of_int b) ∧
    (quality = None → q = "192") ∧
    (quality = Some 0 → q = "192").
Proof.
  exists (str_of_int (int_or quality 192)).
  rewrite download_audio_steps.
  unfold formats_handed, postprocessors_handed; simpl.
  rewrite !fmap_app; simpl. split_and!; try done.
  - intros b -> Hb. unfold int_or, truthy_int. by destruct (Z.eqb_spec b 0).
  - by intros ->.
  - by intros ->.
Qed.

(** C8: for every call to [download_video] or [download_audio], the scratch
    directory is a new one, the extractor is pointed into it, and it is
    gone when the call ends, whether the call returns a payload, the
    extractor raises, or no output file is found: the directories on disk
    are those there were before the call. *)
Theorem scratch_directory_released url w :
  scratch w !! mkdtemp (scratch w) = None →
  (∀ height,
     let out := download_video mkdtemp extractor url height w in
     scratch out.2 = scratch w ∧
     scratch out.2 !! mkdtemp (scratch w) = None ∧
     (outtmpl <$> (fst <$> last (calls out.2)))
     = Some (os_path_join (mkdtemp (scratch w)) "output.%(ext)s")) ∧
  (∀ codec quality,
     let out := download_audio mkdtemp extractor url codec quality w in
     scratch out.2 = scratch w ∧
     scratch out.2 !! mkdtemp (scratch w) = None ∧
     (outtmpl <$> (fst <$> last (calls out.2)))
     = Some (os_path_join (mkdtemp (scratch w)) "output.%(ext)s")).
Proof.
  intros Hfresh. split.
  - intros height out. subst out. rewrite download_video_steps; simpl.
    rewrite scratch_round_trip by done. by rewrite last_snoc.
  - intros codec quality out. subst out. rewrite download_audio_steps; simpl.
    rewrite scratch_round_trip by done. by rewrite last_snoc.
Qed.
End DownloaderFacts.

Example video_format_selector_1080 :
  video_format_selector (Some 1080)
  = "bestvideo[height=1080]+bestaudio/best[height=1080]/best".
Proof. vm_compute. reflexivity. Qed.

(** The claim C1 fails at the target height [0]: the expression handed to
    the extractor is not the three-tier fallback for that height. *)
Lemma video_format_zero_height :
  let handed :=
    formats_handed
      (download_video sample_mkdtemp mp4_extractor sample_url (Some 0) empty_world).2 in
  handed = ["bestvideo+bestaudio/best"] ∧
  handed ≠ [("bestvideo[height=" ++ str_of_int 0 ++ "]+bestaudio/best[height="
              ++ str_of_int 0 ++ "]/best")%string].
Proof. vm_compute. split; [reflexivity|discriminate]. Qed.

Lemma video_format_expression_witness :
  1080 ≠ 0 ∧
  formats_handed
    (download_video sample_mkdtemp mp4_extractor sample_url (Some 1080) empty_world).2
  = (formats_handed empty_world ++
     [("bestvideo[height=" ++ str_of_int 1080 ++ "]+bestaudio/best[height="
         ++ str_of_int 1080 ++ "]/best")%string])%list ∧
  formats_handed
    (download_video sample_mkdtemp mp4_extractor sample_url None empty_world).2
  = (formats_handed empty_world ++ ["bestvideo+bestaudio/best"])%list.
Proof.
  assert (1080 ≠ 0) as Hne by lia.
  split; [exact Hne|].
  apply (video_format_expression sample_mkdtemp mp4_extractor sample_url 1080
           empty_world Hne).
Defined.

(** The claim C6 fails at the requested bitrate [0]: the post-processor is
    given the quality ["192"], not ["0"]. *)
Lemma audio_quality_zero_bitrate :
  let handed :=
    postprocessors_handed
      (download_audio sample_mkdtemp mp4_extractor sample_url "mp3" (Some 0)
         empty_world).2 in
  handed = [Some [ {| key := "FFmpegExtractAudio";
                      preferredcodec := "mp3";
                      preferredquality := "192" |} ]] ∧
  handed ≠ [Some [ {| key := "FFmpegExtractAudio";
                      preferredcodec := "mp3";
                      preferredquality := str_of_int 0 |} ]].
Proof. vm_compute. split; [reflexivity|discriminate]. Qed.

Example audio_quality_requested :
  postprocessors_handed
    (download_audio sample_mkdtemp mp4_extractor sample_url "opus" (Some 128) empty_world).2
  = [Some [ {| key := "FFmpegExtractAudio";
               preferredcodec := "opus";
               preferredquality := "128" |} ]].
Proof. vm_compute. reflexivity. Qed.

Lemma scratch_directory_released_witness :
  scratch busy_world !! sample_mkdtemp (scratch busy_world) = None ∧
  (∀ height,
     let out := download_video sample_mkdtemp failing_extractor sample_url height
                  busy_world in
     scratch out.2 = scratch busy_world ∧
     scratch out.2 !! sample_mkdtemp (scratch busy_world) = None ∧
     (outtmpl <$> (fst <$> last (calls out.2)))
     = Some (os_path_join (sample_mkdtemp (scratch busy_world)) "output.%(ext)s")) ∧
  (∀ codec quality,
     let out := download_audio sample_mkdtemp failing_extractor sample_url codec
                  quality busy_world in
     scratch out.2 = scratch busy_world ∧
     scratch out.2 !! sample_mkdtemp (scratch busy_world) = None ∧
     (outtmpl <$> (fst <$> last (calls out.2)))
     = Some (os_path_join (sample_mkdtemp (scratch busy_world)) "output.%(ext)s")).
Proof.
  assert (scratch busy_world !! sample_mkdtemp (scratch busy_world) = None)
    as Hfresh by (vm_compute; reflexivity).
  split; [exact Hfresh|].
  apply (scratch_directory_released sample_mkdtemp failing_extractor sample_url
           busy_world Hfresh).
Defined.

(** The three ways out of a download, each leaving the directories on disk
    as they were: a payload, a failure of the extractor, a missing output. *)
Example download_video_success :
  download_video sample_mkdtemp mp4_extractor sample_url (Some 1080) busy_world
  = (Ok ([Byte.x00; Byte.x01; Byte.x02], "output.mp4", "video/mp4"),
     {| scratch := scratch busy_world;
        calls := [(video_ydl_opts "/tmp/tmpk3x9" (Some 1080), [sample_url])] |}).
Proof. vm_compute. reflexivity. Qed.

Example download_video_extractor_failure :
  download_video sample_mkdtemp failing_extractor sample_url None busy_world
  = (Raise (DownloadError "Unsupported URL"),
     {| scratch := scratch busy_world;
        calls := [(video_ydl_opts "/tmp/tmpk3x9" None, [sample_url])] |}).
Proof. vm_compute. reflexivity. Qed.

Example download_audio_missing_output :
  download_audio sample_mkdtemp silent_extractor sample_url "m4a" None busy_world
  = (Raise (FileNotFoundError "Downloaded file not found."),
     {| scratch := scratch busy_world;
        calls := [(audio_ydl_opts "/tmp/tmpk3x9" "m4a" None, [sample_url])] |}).
Proof. vm_compute. reflexivity. Qed.

Example output_template :
  outtmpl (video_ydl_opts "/tmp/tmpk3x9" None) = "/tmp/tmpk3x9/output.%(ext)s".
Proof. vm_compute. reflexivity. Qed.

(** * Further properties of the code *)

(** ** The format selector, beyond the listed claims *)

Lemma descending_antisym : AntiSymm eq (λ a b : Z, b ≤ a).
Proof. intros a b ? ?. lia. Qed.

(** The resolution list is a function of the set of streams alone: neither
    the order or repetition of the streams nor the order in which the set of
    heights is iterated shows in it. *)
Theorem resolutions_order_independent
    (iter1 iter2 : gset Z → list Z) info1 info2 :
  (∀ X, iter1 X ≡ₚ elements X) →
  (∀ X, iter2 X ≡ₚ elements X) →
  (∀ f, f ∈ info_formats info1 ↔ f ∈ info_formats info2) →
  list_available_resolutions iter1 info1 = list_available_resolutions iter2 info2.
Proof.
  intros H1 H2 Hsame.
  apply (@StronglySorted_unique Z (λ a b : Z, b ≤ a) descending_antisym);
    [apply (sorted_desc_sorted id)|apply (sorted_desc_sorted id)|].
  apply NoDup_Permutation; [by apply resolutions_NoDup..|].
  intros h. rewrite !resolutions_elem_of by done.
  by setoid_rewrite Hsame.
Qed.

Lemma resolutions_order_independent_witness :
  (∀ X : gset Z, elements X ≡ₚ elements X) ∧
  (∀ X : gset Z, reverse (elements X) ≡ₚ elements X) ∧
  (∀ f, f ∈ info_formats (mk_info [vp9_1080; bare_720; vp9_1080]) ↔
        f ∈ info_formats (mk_info [bare_720; vp9_1080])) ∧
  list_available_resolutions elements (mk_info [vp9_1080; bare_720; vp9_1080])
  = list_available_resolutions (λ X, reverse (elements X))
      (mk_info [bare_720; vp9_1080]).
Proof.
  assert (∀ f, f ∈ info_formats (mk_info [vp9_1080; bare_720; vp9_1080]) ↔
               f ∈ info_formats (mk_info [bare_720; vp9_1080])) as Hsame.
  { intros f. unfold info_formats, mk_info; simpl. rewrite !elem_of_cons. tauto. }
  split; [reflexivity|]. split; [intros X; apply reverse_Permutation|].
  split; [exact Hsame|].
  apply (resolutions_order_independent elements (λ X, reverse (elements X))
           _ _ (λ X, reflexivity (elements X))
           (λ X, reverse_Permutation (elements X)) Hsame).
Defined.

(** The audio list is determined up to the order of ties: for the same set of
    streams and any two iteration orders, the two lists hold the same pairs
    and show the same sequence of bitrates (an unknown one read as [0]). *)
Theorem audio_formats_order_independent
    (iter1 iter2 : gset AudioOpt → list AudioOpt) info1 info2 :
  (∀ X, iter1 X ≡ₚ elements X) →
  (∀ X, iter2 X ≡ₚ elements X) →
  (∀ f, f ∈ info_formats info1 ↔ f ∈ info_formats info2) →
  list_audio_formats iter1 info1 ≡ₚ list_audio_formats iter2 info2 ∧
  (λ x, default 0 x.2) <$> list_audio_formats iter1 info1
  = (λ x, default 0 x.2) <$> list_audio_formats iter2 info2.
Proof.
  intros H1 H2 Hsame.
  assert (list_audio_formats iter1 info1 ≡ₚ list_audio_formats iter2 info2)
    as Hperm.
  { apply NoDup_Permutation; [by apply audio_formats_NoDup..|].
    intros x. rewrite !audio_formats_elem_of by done.
    by setoid_rewrite Hsame. }
  split; [done|].
  assert (∀ iter info,
            StronglySorted (λ a b : Z, b ≤ a)
              ((λ x : AudioOpt, default 0 x.2) <$> list_audio_formats iter info))
    as Hsorted.
  { intros iter info.
    apply (StronglySorted_fmap _ (λ x y : AudioOpt, abr_key y ≤ abr_key x));
      [|apply (sorted_desc_sorted abr_key)].
    intros x y. by rewrite !abr_key_default. }
  apply (@StronglySorted_unique Z (λ a b : Z, b ≤ a) descending_antisym);
    [apply Hsorted|apply Hsorted|].
  by apply fmap_Permutation.
Qed.

Lemma audio_formats_order_independent_witness :
  (∀ X : gset AudioOpt, elements X ≡ₚ elements X) ∧
  (∀ X : gset AudioOpt, reverse (elements X) ≡ₚ elements X) ∧
  (∀ f, f ∈ info_formats (mk_info [opus_160; audio_720; opus_160]) ↔
        f ∈ info_formats (mk_info [audio_720; opus_160])) ∧
  list_audio_formats elements (mk_info [opus_160; audio_720; opus_160])
  ≡ₚ list_audio_formats (λ X, reverse (elements X)) (mk_info [audio_720; opus_160]) ∧
  (λ x, default 0 x.2)
    <$> list_audio_formats elements (mk_info [opus_160; audio_720; opus_160])
  = (λ x, default 0 x.2)
    <$> list_audio_formats (λ X, reverse (elements X))
          (mk_info [audio_720; opus_160]).
Proof.
  assert (∀ f, f ∈ info_formats (mk_info [opus_160; audio_720; opus_160]) ↔
               f ∈ info_formats (mk_info [audio_720; opus_160])) as Hsame.
  { intros f. unfold info_formats, mk_info; simpl. rewrite !elem_of_cons. tauto. }
  split; [reflexivity|]. split; [intros X; apply reverse_Permutation|].
  split; [exact Hsame|].
  apply (audio_formats_order_independent elements (λ X, reverse (elements X))
           _ _ (λ X, reflexivity (elements X))
           (λ X, reverse_Permutation (elements X)) Hsame).
Defined.

Lemma length_omap_le {A B} (g : A → option B) (l : list A) :
  (length (omap g l) ≤ length l)%nat.
Proof.
  induction l as [|x l IH]; [done|].
  change (omap g (x :: l))
    with (match g x with Some y => y :: omap g l | None => omap g l end).
  destruct (g x); simpl; lia.
Qed.

(** Neither list is longer than what feeds it: at most one resolution per
    stream, and at most one audio option per audio-only stream. *)
Theorem selector_lengths_bounded
    (iter_heights : gset Z → list Z)
    (iter_audio : gset AudioOpt → list AudioOpt) info :
  (∀ X, iter_heights X ≡ₚ elements X) →
  (∀ X, iter_audio X ≡ₚ elements X) →
  (length (list_available_resolutions iter_heights info)
   ≤ length (info_formats info))%nat ∧
  (length (list_audio_formats iter_audio info)
   ≤ length (filter (λ f, audio_only f = true) (info_formats info)))%nat.
Proof.
  intros Hh Ha. split.
  - transitivity (length (omap height (info_formats info))).
    + apply submseteq_length, NoDup_submseteq; [by apply resolutions_NoDup|].
      intros h Hin. apply resolutions_elem_of in Hin as (f & Hf & _ & Hhf & _);
        [|done].
      apply list_elem_of_omap. by exists f.
    + apply length_omap_le.
  - rewrite <- (length_fmap audio_entry).
    apply submseteq_length, NoDup_submseteq; [by apply audio_formats_NoDup|].
    intros x Hin. apply audio_formats_elem_of in Hin as (f & Hf & Hao & ->);
      [|done].
    apply list_elem_of_fmap. exists f. split; [done|].
    by apply list_elem_of_filter.
Qed.

Lemma selector_lengths_bounded_witness :
  (∀ X : gset Z, elements X ≡ₚ elements X) ∧
  (∀ X : gset AudioOpt, elements X ≡ₚ elements X) ∧
  (length (list_available_resolutions elements
             (mk_info [vp9_1080; vp9_1080; opus_160; opus_160]))
   ≤ length (info_formats (mk_info [vp9_1080; vp9_1080; opus_160; opus_160])))%nat ∧
  (length (list_audio_formats elements
             (mk_info [vp9_1080; vp9_1080; opus_160; opus_160]))
   ≤ length (filter (λ f, audio_only f = true)
               (info_formats (mk_info [vp9_1080; vp9_1080; opus_160; opus_160]))))%nat.
Proof.
  split; [reflexivity|]. split; [reflexivity|].
  apply (selector_lengths_bounded elements elements
           (mk_info [vp9_1080; vp9_1080; opus_160; opus_160])
           (λ X, reflexivity (elements X)) (λ X, reflexivity (elements X))).
Defined.

(** The two lists split the streams by the video codec: when every stream
    has the video codec ["none"] no resolution is listed, and when no stream
    has it no audio option is listed. *)
Theorem selector_video_audio_split
    (iter_heights : gset Z → list Z)
    (iter_audio : gset AudioOpt → list AudioOpt) info :
  (∀ X, iter_heights X ≡ₚ elements X) →
  (∀ X, iter_audio X ≡ₚ elements X) →
  ((∀ f, f ∈ info_formats info → vcodec f = Some "none") →
     list_available_resolutions iter_heights info = []) ∧
  ((∀ f, f ∈ info_formats info → vcodec f ≠ Some "none") →
     list_audio_formats iter_audio info = []).
Proof.
  intros Hh Ha. split; intros Hall.
  - destruct (list_available_resolutions iter_heights info) as [|h r] eqn:Hr;
      [done|].
    assert (h ∈ list_available_resolutions iter_heights info) as Hin
      by (rewrite Hr; left).
    apply resolutions_elem_of in Hin as (f & Hf & Hv & _); [|done].
    by destruct (Hv (Hall f Hf)).
  - destruct (list_audio_formats iter_audio info) as [|x r] eqn:Hr; [done|].
    assert (x ∈ list_audio_formats iter_audio info) as Hin
      by (rewrite Hr; left).
    apply audio_formats_elem_of in Hin as (f & Hf & Hao & _); [|done].
    apply audio_only_spec in Hao as (Hv & _).
    by destruct (Hall f Hf).
Qed.

Lemma selector_video_audio_split_witness :
  (∀ X : gset Z, elements X ≡ₚ elements X) ∧
  (∀ X : gset AudioOpt, elements X ≡ₚ elements X) ∧
  ((∀ f, f ∈ info_formats (mk_info [audio_720; opus_160]) →
         vcodec f = Some "none") →
     list_available_resolutions elements (mk_info [audio_720; opus_160]) = []) ∧
  ((∀ f, f ∈ info_formats (mk_info [audio_720; opus_160]) →
         vcodec f ≠ Some "none") →
     list_audio_formats elements (mk_info [audio_720; opus_160]) = []).
Proof.
  split; [reflexivity|]. split; [reflexivity|].
  apply (selector_video_audio_split elements elements
           (mk_info [audio_720; opus_160])
           (λ X, reflexivity (elements X)) (λ X, reflexivity (elements X))).
Defined.

(** A positive fractional bitrate is listed rounded down: the listed integer
    [b] satisfies [b <= abr < b + 1]; in particular a bitrate below one is
    listed as [0], which is not the unknown bitrate. *)
Theorem audio_float_bitrate_floor
    (iter_audio : gset AudioOpt → list AudioOpt) info f q :
  (∀ X, iter_audio X ≡ₚ elements X) →
  f ∈ info_formats info → audio_only f = true →
  abr f = Some (PyFloat q) → Qlt 0 q →
  ∃ b, (str_or (ext f) "m4a", Some b) ∈ list_audio_formats iter_audio info ∧
       0 ≤ b ∧ Qle (inject_Z b) q ∧ Qlt q (inject_Z (b + 1)).
Proof.
  intros Hperm Hf Hao Habr Hpos.
  assert (0 < Qnum q) as Hnum.
  { unfold Qlt in Hpos. simpl in Hpos. lia. }
  exists (Qnum q `div` Z.pos (Qden q)).
  pose proof (Z.mul_div_le (Qnum q) (Z.pos (Qden q)) ltac:(lia)) as Hlo.
  pose proof (Z.mul_succ_div_gt (Qnum q) (Z.pos (Qden q)) ltac:(lia)) as Hhi.
  split_and!.
  - apply audio_formats_elem_of; [done|]. exists f. split_and!; [done..|].
    unfold audio_entry. rewrite Habr. simpl.
    destruct (Z.eqb_spec (Qnum q) 0) as [?|_]; [lia|]. simpl.
    by rewrite Z.quot_div_nonneg by lia.
  - apply Z.div_pos; lia.
  - unfold Qle; simpl. lia.
  - unfold Qlt; simpl. lia.
Qed.

Lemma audio_float_bitrate_floor_witness :
  (∀ X : gset AudioOpt, elements X ≡ₚ elements X) ∧
  audio_720 ∈ info_formats (mk_info [vp9_1080; audio_720]) ∧
  audio_only audio_720 = true ∧
  abr audio_720 = Some (PyFloat (129478 # 1000)) ∧
  Qlt 0 (129478 # 1000) ∧
  ∃ b, (str_or (ext audio_720) "m4a", Some b)
         ∈ list_audio_formats elements (mk_info [vp9_1080; audio_720]) ∧
       0 ≤ b ∧ Qle (inject_Z b) (129478 # 1000) ∧
       Qlt (129478 # 1000) (inject_Z (b + 1)).
Proof.
  assert (audio_720 ∈ info_formats (mk_info [vp9_1080; audio_720])) as Hin
    by (right; left).
  assert (Qlt 0 (129478 # 1000)) as Hpos by reflexivity.
  split; [reflexivity|]. split; [exact Hin|]. split; [reflexivity|].
  split; [reflexivity|]. split; [exact Hpos|].
  apply (audio_float_bitrate_floor elements (mk_info [vp9_1080; audio_720])
           audio_720 (129478 # 1000) (λ X, reflexivity (elements X))
           Hin eq_refl eq_refl Hpos).
Defined.

(** ** The transfer helpers, beyond the listed claims *)

Lemma ascii_lower_idemp c : ascii_lower (ascii_lower c) = ascii_lower c.
Proof. destruct c as [[] [] [] [] [] [] [] []]; reflexivity. Qed.

Lemma lower_idemp s : lower (lower s) = lower s.
Proof.
  induction s as [|c s IH]; simpl; [done|].
  by rewrite ascii_lower_idemp, IH.
Qed.

(** The MIME type does not depend on the letter case of the extension. *)
Theorem mime_case_insensitive e :
  detect_mime_from_ext (lower e) = detect_mime_from_ext e ∧
  (∀ e', lower e' = lower e → detect_mime_from_ext e' = detect_mime_from_ext e).
Proof.
  unfold detect_mime_from_ext. split.
  - by rewrite lower_idemp.
  - by intros e' ->.
Qed.

(** For an extension made of ASCII characters, the generic type
    ["application/octet-stream"] is returned exactly when the extension,
    lower-cased, is not among the eight of the table; every other such
    extension gets the type the table gives to its lower-case form. *)
Theorem mime_table_lookup e :
  isascii e = true →
  (detect_mime_from_ext e = "application/octet-stream" ↔
   lower e ∉ ["mp4"; "webm"; "mkv"; "mp3"; "m4a"; "aac"; "opus"; "wav"]) ∧
  (∀ k v,
     (k, v) ∈ [("mp4", "video/mp4"); ("webm", "video/webm");
               ("mkv", "video/x-matroska"); ("mp3", "audio/mpeg");
               ("m4a", "audio/mp4"); ("aac", "audio/aac");
               ("opus", "audio/ogg"); ("wav", "audio/wav")] →
     lower e = k → detect_mime_from_ext e = v).
Proof.
  intros _. unfold detect_mime_from_ext, mapping.
  set (table := [("mp4", "video/mp4"); ("webm", "video/webm");
                 ("mkv", "video/x-matroska"); ("mp3", "audio/mpeg");
                 ("m4a", "audio/mp4"); ("aac", "audio/aac");
                 ("opus", "audio/ogg"); ("wav", "audio/wav")]).
  assert (NoDup table.*1) as Hnd by (vm_compute; repeat constructor; set_solver).
  split.
  - destruct (list_to_map table !! lower e) as [v|] eqn:Hl; simpl.
    + apply (elem_of_list_to_map (M := gmap string)) in Hl; [|done].
      assert (lower e ∈ table.*1) as Hk.
      { apply list_elem_of_fmap. by exists (lower e, v). }
      split; [|by intros Hn; destruct (Hn Hk)].
      intros ->. exfalso. clear -Hl. subst table.
      repeat (apply elem_of_cons in Hl as [Heq|Hl]; [congruence|]).
      by apply elem_of_nil in Hl.
    + split; [|done]. intros _.
      by apply (not_elem_of_list_to_map (M := gmap string)) in Hl.
  - intros k v Hkv <-.
    apply (elem_of_list_to_map (M := gmap string)) in Hkv; [|done].
    fold table. by rewrite Hkv.
Qed.

Lemma mime_table_lookup_witness :
  isascii "Mp3" = true ∧
  (detect_mime_from_ext "Mp3" = "application/octet-stream" ↔
   lower "Mp3" ∉ ["mp4"; "webm"; "mkv"; "mp3"; "m4a"; "aac"; "opus"; "wav"]) ∧
  (∀ k v,
     (k, v) ∈ [("mp4", "video/mp4"); ("webm", "video/webm");
               ("mkv", "video/x-matroska"); ("mp3", "audio/mpeg");
               ("m4a", "audio/mp4"); ("aac", "audio/aac");
               ("opus", "audio/ogg"); ("wav", "audio/wav")] →
     lower "Mp3" = k → detect_mime_from_ext "Mp3" = v).
Proof.
  split; [reflexivity|].
  apply (mime_table_lookup "Mp3" eq_refl).
Defined.

(** [split] never returns the empty list. *)
Lemma split_nonempty sep s : split sep s ≠ [].
Proof.
  destruct s as [|c s]; simpl; [done|].
  destruct (Ascii.eqb c sep); [done|]. by destruct (split sep s).
Qed.

Lemma split_no_sep sep s : contains_char sep s = false → split sep s = [s].
Proof.
  induction s as [|c s IH]; simpl; [done|].
  intros [Hc Hs]%orb_false_iff. rewrite Hc, (IH Hs). done.
Qed.

(** Splitting a text that holds a separator: the pieces of what follows
    the separator come last. *)
Lemma split_app_sep sep s t :
  ∃ p pre, split sep (s ++ String sep t) = (p :: pre ++ split sep t)%list.
Proof.
  induction s as [|c s (p & pre & IH)].
  - exists "", []. change ("" ++ String sep t) with (String sep t). simpl.
    by rewrite Ascii.eqb_refl.
  - change (String c s ++ String sep t) with (String c (s ++ String sep t)).
    simpl. rewrite IH. destruct (Ascii.eqb c sep).
    + by exists "", (p :: pre).
    + by exists (String c p), pre.
Qed.

Lemma split_last_after_sep sep s t :
  last_item (split sep (s ++ String sep t)) = last_item (split sep t).
Proof.
  unfold last_item. destruct (split_app_sep sep s t) as (p & pre & ->).
  destruct (split sep t) as [|w ws] eqn:Hsp; [by apply split_nonempty in Hsp|].
  change (p :: pre ++ w :: ws)%list with ((p :: pre) ++ w :: ws)%list.
  by rewrite last_app_cons.
Qed.

(** The MIME type of the returned file is that of the text after the last
    dot of its name, whatever dots come before. *)
Theorem output_mime_from_last_extension
    (fs : gmap string Dir) folder before stem e data after prefix :
  fs !! folder = Some (before ++ ((stem ++ "." ++ e)%string, data) :: after)%list →
  Forall (λ entry, startswith entry.1 prefix = false) before →
  startswith (stem ++ "." ++ e) prefix = true →
  contains_char "." e = false →
  read_first_file_by_prefix fs folder prefix
  = Ok (data, stem ++ "." ++ e, detect_mime_from_ext e).
Proof.
  intros Hfs Hbefore Hname Hdot.
  unfold read_first_file_by_prefix. rewrite Hfs.
  rewrite scan_listing_first by done.
  change (stem ++ "." ++ e) with (stem ++ String "." e).
  rewrite split_last_after_sep, split_no_sep by done.
  done.
Qed.

Lemma output_mime_from_last_extension_witness :
  let fs : gmap string Dir := <["/tmp/tmpk3x9" := parts_dir]> ∅ in
  fs !! "/tmp/tmpk3x9"
  = Some ([("cover.jpg", [Byte.xff])]
          ++ (("output.f137" ++ "." ++ "mp4")%string, [Byte.x00; Byte.x18])
          :: [("output.f251.webm", [Byte.x1a])])%list ∧
  Forall (λ entry : string * list Byte.byte, startswith entry.1 "output." = false)
    [("cover.jpg", [Byte.xff])] ∧
  startswith ("output.f137" ++ "." ++ "mp4") "output." = true ∧
  contains_char "." "mp4" = false ∧
  read_first_file_by_prefix fs "/tmp/tmpk3x9" "output."
  = Ok ([Byte.x00; Byte.x18], "output.f137" ++ "." ++ "mp4",
        detect_mime_from_ext "mp4").
Proof.
  intros fs.
  assert (fs !! "/tmp/tmpk3x9"
          = Some ([("cover.jpg", [Byte.xff])]
                  ++ (("output.f137" ++ "." ++ "mp4")%string, [Byte.x00; Byte.x18])
                  :: [("output.f251.webm", [Byte.x1a])])%list) as Hfs
    by (vm_compute; reflexivity).
  assert (Forall (λ entry : string * list Byte.byte,
                    startswith entry.1 "output." = false)
            [("cover.jpg", [Byte.xff])]) as Hb
    by (repeat constructor).
  split; [exact Hfs|]. split; [exact Hb|].
  split; [reflexivity|]. split; [reflexivity|].
  apply (output_mime_from_last_extension fs "/tmp/tmpk3x9" _ "output.f137" "mp4"
           _ _ "output." Hfs Hb eq_refl eq_refl).
Defined.

(** ** The downloaders, beyond the listed claims *)

Section DownloaderOutcomes.
Variable mkdtemp : gmap string Dir → string.
Variable extractor : YdlOpts → list string → Result unit * Dir.

(** What a download returns, read off the run of the extractor. *)
Lemma scan_after_run (run : Result unit * Dir) :
  (∀ e, run.1 = Raise e →
     match run.1 with
     | Ok _ => scan_listing run.2 "output."
     | Raise e' => Raise e'
     end = Raise e) ∧
  (run.1 = Ok () →
   Forall (λ entry, startswith entry.1 "output." = false) run.2 →
     match run.1 with
     | Ok _ => scan_listing run.2 "output."
     | Raise e' => Raise e'
     end = Raise (FileNotFoundError "Downloaded file not found.")) ∧
  (∀ before name data after,
     run.1 = Ok () →
     run.2 = (before ++ (name, data) :: after)%list →
     Forall (λ entry, startswith entry.1 "output." = false) before →
     startswith name "output." = true →
     match run.1 with
     | Ok _ => scan_listing run.2 "output."
     | Raise e' => Raise e'
     end = Ok (data, name, detect_mime_from_ext (last_item (split "." name)))).
Proof.
  destruct run as [r files]; simpl. split_and!.
  - by intros e ->.
  - intros -> Hnone.
    apply scan_listing_raises in Hnone as [msg Hmsg].
    rewrite Hmsg. f_equal. f_equal.
    clear -Hmsg. induction files as [|[n d] files IH]; simpl in Hmsg.
    + by injection Hmsg.
    + destruct (startswith n "output."); [done|auto].
  - intros before name data after -> -> Hb Hn. by apply scan_listing_first.
Qed.

(** [download_video] has three outcomes: an exception of the extractor comes
    back unchanged; if the extractor returns without leaving a file whose
    name starts with ["output."], [FileNotFoundError] is raised; otherwise
    the first such file is returned with its name and MIME type. *)
Theorem download_video_outcomes url height w :
  let run := extractor (video_ydl_opts (mkdtemp (scratch w)) height) [url] in
  let r := (download_video mkdtemp extractor url height w).1 in
  (∀ e, run.1 = Raise e → r = Raise e) ∧
  (run.1 = Ok () →
   Forall (λ entry, startswith entry.1 "output." = false) run.2 →
   r = Raise (FileNotFoundError "Downloaded file not found.")) ∧
  (∀ before name data after,
     run.1 = Ok () →
     run.2 = (before ++ (name, data) :: after)%list →
     Forall (λ entry, startswith entry.1 "output." = false) before →
     startswith name "output." = true →
     r = Ok (data, name, detect_mime_from_ext (last_item (split "." name)))).
Proof.
  intros run r. subst r. rewrite download_video_steps. simpl.
  apply scan_after_run.
Qed.

(** [download_audio] has the same three outcomes, the extractor being run
    with the audio options. *)
Theorem download_audio_outcomes url codec quality w :
  let run :=
    extractor (audio_ydl_opts (mkdtemp (scratch w)) codec quality) [url] in
  let r := (download_audio mkdtemp extractor url codec quality w).1 in
  (∀ e, run.1 = Raise e → r = Raise e) ∧
  (run.1 = Ok () →
   Forall (λ entry, startswith entry.1 "output." = false) run.2 →
   r = Raise (FileNotFoundError "Downloaded file not found.")) ∧
  (∀ before name data after,
     run.1 = Ok () →
     run.2 = (before ++ (name, data) :: after)%list →
     Forall (λ entry, startswith entry.1 "output." = false) before →
     startswith name "output." = true →
     r = Ok (data, name, detect_mime_from_ext (last_item (split "." name)))).
Proof.
  intros run r. subst r. rewrite download_audio_steps. simpl.
  apply scan_after_run.
Qed.

(** Each download calls the extractor exactly once, with the one URL it was
    given, whether it succeeds or not; a video download asks for merging into
    MP4 and for no post-processor, an audio download for no merge container. *)
Theorem extractor_called_once url height codec quality w :
  (∃ opts,
     calls (download_video mkdtemp extractor url height w).2
     = (calls w ++ [(opts, [url])])%list ∧
     merge_output_format opts = Some "mp4" ∧ quiet opts = true ∧
     postprocessor_args opts = Some [] ∧ postprocessors opts = None) ∧
  (∃ opts,
     calls (download_audio mkdtemp extractor url codec quality w).2
     = (calls w ++ [(opts, [url])])%list ∧
     merge_output_format opts = None ∧ quiet opts = true ∧
     postprocessor_args opts = None ∧
     (length <$> postprocessors opts) = Some 1%nat).
Proof.
  split.
  - exists (video_ydl_opts (mkdtemp (scratch w)) height).
    by rewrite download_video_steps.
  - exists (audio_ydl_opts (mkdtemp (scratch w)) codec quality).
    by rewrite download_audio_steps.
Qed.

End DownloaderOutcomes.

(** Two downloads in a row, each with its own draw of the directory name and
    its own run of the extractor: the second one finds the disk as the first
    one found it, so what the first left behind cannot reach it, and the
    extractor has been called twice, in order, each time pointed into the
    directory of that call. *)
Theorem downloads_in_sequence
    (mkdtemp1 mkdtemp2 : gmap string Dir → string)
    (extractor1 extractor2 : YdlOpts → list string → Result unit * Dir)
    url1 height url2 codec quality w :
  scratch w !! mkdtemp1 (scratch w) = None →
  scratch w !! mkdtemp2 (scratch w) = None →
  let w1 := (download_video mkdtemp1 extractor1 url1 height w).2 in
  let out := download_audio mkdtemp2 extractor2 url2 codec quality w1 in
  scratch w1 = scratch w ∧
  scratch out.2 = scratch w ∧
  out.1 = (download_audio mkdtemp2 extractor2 url2 codec quality w).1 ∧
  calls out.2
  = (calls w ++
     [(video_ydl_opts (mkdtemp1 (scratch w)) height, [url1]);
      (audio_ydl_opts (mkdtemp2 (scratch w)) codec quality, [url2])])%list.
Proof.
  intros Hfresh1 Hfresh2 w1 out.
  assert (scratch w1 = scratch w) as Hw1.
  { subst w1. rewrite download_video_steps. simpl.
    by apply scratch_round_trip. }
  assert (calls w1
          = (calls w ++ [(video_ydl_opts (mkdtemp1 (scratch w)) height, [url1])])%list)
    as Hc1.
  { subst w1. by rewrite download_video_steps. }
  subst out. rewrite !download_audio_steps. simpl. rewrite Hw1, Hc1.
  split_and!; [done|by apply scratch_round_trip|done|].
  by rewrite <- app_assoc.
Qed.

Lemma downloads_in_sequence_witness :
  scratch busy_world !! sample_mkdtemp (scratch busy_world) = None ∧
  scratch busy_world !! other_mkdtemp (scratch busy_world) = None ∧
  let w1 :=
    (download_video sample_mkdtemp mp4_extractor sample_url (Some 720) busy_world).2 in
  let out :=
    download_audio other_mkdtemp silent_extractor sample_url "mp3" None w1 in
  scratch w1 = scratch busy_world ∧
  scratch out.2 = scratch busy_world ∧
  out.1 = (download_audio other_mkdtemp silent_extractor sample_url "mp3" None
             busy_world).1 ∧
  calls out.2
  = (calls busy_world ++
     [(video_ydl_opts (sample_mkdtemp (scratch busy_world)) (Some 720),
       [sample_url]);
      (audio_ydl_opts (other_mkdtemp (scratch busy_world)) "mp3" None,
       [sample_url])])%list.
Proof.
  assert (scratch busy_world !! sample_mkdtemp (scratch busy_world) = None)
    as Hfresh1 by (vm_compute; reflexivity).
  assert (scratch busy_world !! other_mkdtemp (scratch busy_world) = None)
    as Hfresh2 by (vm_compute; reflexivity).
  split; [exact Hfresh1|]. split; [exact Hfresh2|].
  apply (downloads_in_sequence sample_mkdtemp other_mkdtemp mp4_extractor
           silent_extractor sample_url (Some 720) sample_url "mp3" None
           busy_world Hfresh1 Hfresh2).
Defined.

Example downloads_in_sequence_templates :
  (λ c : YdlOpts * list string, outtmpl c.1)
    <$> calls
          (download_audio other_mkdtemp silent_extractor sample_url "mp3" None
             (download_video sample_mkdtemp mp4_extractor sample_url (Some 720)
                busy_world).2).2
  = ["/tmp/tmpk3x9/output.%(ext)s"; "/tmp/tmpq7w2/output.%(ext)s"].
Proof. vm_compute. reflexivity. Qed.

(** The output template always points into the scratch directory and ends
    with the fixed file stem; both downloaders use the same template. *)
Theorem output_template_in_scratch tmp height codec quality :
  outtmpl (video_ydl_opts tmp height) = outtmpl (audio_ydl_opts tmp codec quality) ∧
  startswith (outtmpl (video_ydl_opts tmp height)) tmp = true ∧
  (∃ dir, outtmpl (video_ydl_opts tmp height) = dir ++ "output.%(ext)s" ∧
          (dir = tmp ∨ dir = tmp ++ "/")) ∧
  (tmp ≠ "" → endswith_sep tmp = false →
   outtmpl (video_ydl_opts tmp height) = tmp ++ "/output.%(ext)s").
Proof.
  simpl. unfold os_path_join.
  change (startswith "output.%(ext)s" "/") with false. cbv iota.
  split_and!; [done| | |].
  - apply startswith_spec.
    destruct (negb (truthy_str tmp) || endswith_sep tmp)%bool; by eexists.
  - destruct (negb (truthy_str tmp) || endswith_sep tmp)%bool eqn:Hc.
    + exists tmp. split; [done|by left].
    + exists (tmp ++ "/"). split; [|by right].
      clear. induction tmp as [|c t IH]; [done|].
      change (String c t ++ "/" ++ "output.%(ext)s")
        with (String c (t ++ "/" ++ "output.%(ext)s")).
      change ((String c t ++ "/") ++ "output.%(ext)s")
        with (String c ((t ++ "/") ++ "output.%(ext)s")).
      by rewrite IH.
  - intros Hne Hend. rewrite Hend. by destruct tmp.
Qed.

(** ** The presentation layer *)

Lemma int_of_str_of_int z : int_of_str (str_of_int z) = Some z.
Proof.
  unfold int_of_str, str_of_int.
  rewrite NilZero.isi.
  - simpl. by rewrite DecimalZ.of_to.
  - destruct z as [|p|p]; simpl; [discriminate| |discriminate].
    intros [= Hnil]. by apply DecimalPos.Unsigned.to_uint_nonnil in Hnil.
  - destruct z as [|p|p]; simpl; [discriminate|discriminate|].
    intros [= Hnil]. by apply DecimalPos.Unsigned.to_uint_nonnil in Hnil.
Qed.

Lemma contains_char_app c s t :
  contains_char c (s ++ t) = (contains_char c s || contains_char c t)%bool.
Proof.
  induction s as [|d s IH]; [done|].
  change (String d s ++ t) with (String d (s ++ t)). simpl.
  by rewrite IH, orb_assoc.
Qed.

Lemma remove_char_absent c s : contains_char c s = false → remove_char c s = s.
Proof.
  induction s as [|d s IH]; simpl; [done|].
  intros [Hd Hs]%orb_false_iff. by rewrite Hd, IH.
Qed.

Lemma remove_char_app c s t :
  remove_char c (s ++ t) = remove_char c s ++ remove_char c t.
Proof.
  induction s as [|d s IH]; [done|].
  change (String d s ++ t) with (String d (s ++ t)). simpl.
  rewrite IH. by destruct (Ascii.eqb d c).
Qed.

(** The decimal text of an integer holds digits and a minus sign only: no
    letter [p], no letter [B]. *)
Lemma str_of_int_no_letter z :
  contains_char "p" (str_of_int z) = false ∧
  contains_char "B" (str_of_int z) = false.
Proof.
  assert (∀ d, contains_char "p" (NilEmpty.string_of_uint d) = false ∧
               contains_char "B" (NilEmpty.string_of_uint d) = false) as Hd.
  { induction d as [|d [??]|d [??]|d [??]|d [??]|d [??]|d [??]|d [??]|d [??]
                    |d [??]|d [??]]; by simpl. }
  assert (∀ d, contains_char "p" (NilZero.string_of_uint d) = false ∧
               contains_char "B" (NilZero.string_of_uint d) = false) as Hz.
  { intros d. destruct d; try apply Hd. by simpl. }
  unfold str_of_int.
  destruct (Z.to_int z) as [d|d]; simpl; [apply Hz|].
  destruct (Hz d) as [-> ->]. done.
Qed.

Lemma height_label_parses h :
  sel_height_of_label (str_of_int h ++ "p") = Some (Some h) ∧
  str_of_int h ++ "p" ≠ "Best available" ∧
  sel_height_of_label "Best available" = Some None.
Proof.
  destruct (str_of_int_no_letter h) as [Hp HB].
  assert (str_of_int h ++ "p" ≠ "Best available") as Hne.
  { intros Heq.
    assert (contains_char "B" (str_of_int h ++ "p") = true) as Hc
      by (by rewrite Heq).
    rewrite contains_char_app, HB in Hc. discriminate. }
  split_and!; [|done|done].
  unfold sel_height_of_label.
  destruct (String.eqb_spec (str_of_int h ++ "p") "Best available") as [?|_];
    [done|].
  rewrite remove_char_app, (remove_char_absent _ _ Hp).
  change (remove_char "p" "p") with "".
  assert (str_of_int h ++ "" = str_of_int h) as ->.
  { generalize (str_of_int h). intros s. induction s as [|c s IH]; [done|].
    change (String c s ++ "") with (String c (s ++ "")). by rewrite IH. }
  by rewrite int_of_str_of_int.
Qed.

Lemma height_labels_parse heights label :
  label ∈ height_labels heights →
  (label = "Best available" ∧ sel_height_of_label label = Some None) ∨
  (∃ h, h ∈ heights ∧ label = str_of_int h ++ "p" ∧
        sel_height_of_label label = Some (Some h)).
Proof.
  unfold height_labels. intros [->|Hin]%elem_of_cons.
  - by left.
  - right. apply list_elem_of_fmap in Hin as (h & -> & Hh).
    exists h. split_and!; [done..|]. apply height_label_parses.
Qed.

(** The label of a height reads back as that height, and the first label as
    no height; no height label is mistaken for the first one. *)
Theorem height_label_round_trip h :
  sel_height_of_label (str_of_int h ++ "p") = Some (Some h) ∧
  str_of_int h ++ "p" ≠ "Best available" ∧
  sel_height_of_label "Best available" = Some None.
Proof. apply height_label_parses. Qed.

(** Every option of the resolution picker can be selected: reading it back
    never raises, and yields either no height, for the first option, or one
    of the heights the picker was built from. *)
Theorem height_labels_all_parse heights label :
  label ∈ height_labels heights →
  (label = "Best available" ∧ sel_height_of_label label = Some None) ∨
  (∃ h, h ∈ heights ∧ label = str_of_int h ++ "p" ∧
        sel_height_of_label label = Some (Some h)).
Proof. apply height_labels_parse. Qed.

Lemma height_labels_all_parse_witness :
  "720p" ∈ height_labels [1080; 720; 480] ∧
  ((("720p" : string) = "Best available" ∧
    sel_height_of_label "720p" = Some None) ∨
   (∃ h, h ∈ [1080; 720; 480] ∧ "720p" = str_of_int h ++ "p" ∧
         sel_height_of_label "720p" = Some (Some h))).
Proof.
  assert ("720p" ∈ height_labels [1080; 720; 480]) as Hin
    by (right; right; left).
  split; [exact Hin|].
  apply (height_labels_all_parse [1080; 720; 480] "720p" Hin).
Defined.

(** Selecting an entry of the resolution picker built from the stream list:
    a height entry always makes [download_video] hand the extractor the
    exact-height expression for that height (a listed height is never [0]),
    and the first entry the unconstrained one. *)
Theorem offered_resolution_selects_height
    (iter_heights : gset Z → list Z)
    (mkdtemp : gmap string Dir → string)
    (extractor : YdlOpts → list string → Result unit * Dir)
    info url w label :
  (∀ X, iter_heights X ≡ₚ elements X) →
  label ∈ height_labels (list_available_resolutions iter_heights info) →
  ∃ sel,
    sel_height_of_label label = Some sel ∧
    ((label = "Best available" ∧
      formats_handed (download_video mkdtemp extractor url sel w).2
      = (formats_handed w ++ ["bestvideo+bestaudio/best"])%list) ∨
     (∃ h, h ∈ list_available_resolutions iter_heights info ∧
           label = str_of_int h ++ "p" ∧
           formats_handed (download_video mkdtemp extractor url sel w).2
           = (formats_handed w ++
              [("bestvideo[height=" ++ str_of_int h
                  ++ "]+bestaudio/best[height=" ++ str_of_int h
                  ++ "]/best")%string])%list)).
Proof.
  intros Hperm Hin.
  apply height_labels_parse in Hin as [[-> Hsel]|(h & Hh & -> & Hsel)].
  - exists None. split; [done|]. left. split; [done|].
    rewrite download_video_steps. unfold formats_handed; simpl.
    by rewrite fmap_app.
  - exists (Some h). split; [done|]. right. exists h. split_and!; [done..|].
    apply resolutions_elem_of in Hh as (_ & _ & _ & _ & Hne); [|done].
    rewrite download_video_steps. unfold formats_handed; simpl.
    rewrite fmap_app; simpl. unfold truthy_int.
    by destruct (Z.eqb_spec h 0).
Qed.

Lemma offered_resolution_selects_height_witness :
  (∀ X : gset Z, elements X ≡ₚ elements X) ∧
  "1080p" ∈ height_labels
              (list_available_resolutions elements (mk_info [vp9_1080; bare_720])) ∧
  ∃ sel,
    sel_height_of_label "1080p" = Some sel ∧
    (((("1080p" : string) = "Best available") ∧
      formats_handed
        (download_video sample_mkdtemp mp4_extractor sample_url sel empty_world).2
      = (formats_handed empty_world ++ ["bestvideo+bestaudio/best"])%list) ∨
     (∃ h, h ∈ list_available_resolutions elements (mk_info [vp9_1080; bare_720]) ∧
           "1080p" = str_of_int h ++ "p" ∧
           formats_handed
             (download_video sample_mkdtemp mp4_extractor sample_url sel
                empty_world).2
           = (formats_handed empty_world ++
              [("bestvideo[height=" ++ str_of_int h
                  ++ "]+bestaudio/best[height=" ++ str_of_int h
                  ++ "]/best")%string])%list)).
Proof.
  assert ("1080p" ∈ height_labels
            (list_available_resolutions elements (mk_info [vp9_1080; bare_720])))
    as Hin by (vm_compute; right; left).
  split; [reflexivity|]. split; [exact Hin|].
  apply (offered_resolution_selects_height elements sample_mkdtemp mp4_extractor
           (mk_info [vp9_1080; bare_720]) sample_url empty_world "1080p"
           (λ X, reflexivity (elements X)) Hin).
Defined.

(** *** The codec picker *)

Lemma ltb_le y x : String.ltb y x = true → String.le y x.
Proof.
  unfold String.ltb, String.le, String.leb.
  by destruct (String.compare y x).
Qed.

Lemma not_ltb_le y x : String.ltb y x = false → String.le x y.
Proof.
  unfold String.ltb, String.le, String.leb.
  rewrite (String.compare_antisym x y).
  by destruct (String.compare y x).
Qed.

Lemma insert_asc_perm x l : insert_asc x l ≡ₚ x :: l.
Proof.
  induction l as [|y l IH]; simpl; [done|].
  destruct (String.ltb y x); [|done].
  rewrite IH. apply Permutation_swap.
Qed.

Lemma sorted_asc_perm l : sorted_asc l ≡ₚ l.
Proof.
  induction l as [|x l IH]; simpl; [done|].
  rewrite insert_asc_perm. by f_equiv.
Qed.

Lemma insert_asc_sorted x l :
  StronglySorted String.le l → StronglySorted String.le (insert_asc x l).
Proof.
  induction 1 as [|y l Hl IH Hy]; simpl.
  - repeat constructor.
  - destruct (String.ltb y x) eqn:Hlt.
    + constructor; [done|].
      rewrite insert_asc_perm. constructor; [by apply ltb_le|done].
    + apply not_ltb_le in Hlt.
      constructor; [by constructor|].
      constructor; [done|].
      eapply Forall_impl; [exact Hy|]. intros z Hz. by etrans.
Qed.

Lemma sorted_asc_sorted l : StronglySorted String.le (sorted_asc l).
Proof.
  induction l as [|x l IH]; simpl; [constructor|].
  by apply insert_asc_sorted.
Qed.

(** [index] finds whatever is in the list, at a position that holds it. *)
Lemma index_elem_of x xs :
  x ∈ xs → ∃ i, index x xs = Some i ∧ xs !! i = Some x.
Proof.
  induction xs as [|y ys IH]; intros Hin; [by apply elem_of_nil in Hin|].
  simpl. destruct (String.eqb_spec y x) as [->|Hne].
  - by exists 0%nat.
  - apply elem_of_cons in Hin as [?|Hin]; [congruence|].
    destruct (IH Hin) as (i & -> & Hi). by exists (S i).
Qed.

(** The codec picker always offers ["mp3"] and ["m4a"] together with every
    container extension of the audio options, and nothing else; its entries
    are pairwise distinct and in ascending order; the preselected position
    is always found and holds ["m4a"]. *)
Theorem codec_picker_options
    (iter_codecs : gset string → list string) (audio_formats : list AudioOpt) :
  (∀ X, iter_codecs X ≡ₚ elements X) →
  let codecs := codecs_of iter_codecs audio_formats in
  (∀ c, c ∈ codecs ↔
        c = "mp3" ∨ c = "m4a" ∨ ∃ b, (c, b) ∈ audio_formats) ∧
  NoDup codecs ∧
  StronglySorted String.le codecs ∧
  ∃ i, codec_index codecs = Some i ∧ codecs !! i = Some "m4a".
Proof.
  intros Hperm codecs.
  assert (∀ c, c ∈ codecs ↔
               c = "mp3" ∨ c = "m4a" ∨ ∃ b, (c, b) ∈ audio_formats) as Hmem.
  { intros c. subst codecs. unfold codecs_of.
    rewrite sorted_asc_perm, Hperm, elem_of_elements, elem_of_union,
      !elem_of_list_to_set, list_elem_of_fmap, !elem_of_cons.
    split.
    - intros [([c' b] & -> & Hin)|[->|[->|Hnil]]]; eauto.
      by apply elem_of_nil in Hnil.
    - intros [->|[->|[b Hin]]]; eauto.
      left. by exists (c, b). }
  split_and!; [done| | |].
  - subst codecs. unfold codecs_of.
    rewrite sorted_asc_perm, Hperm. apply NoDup_elements.
  - apply sorted_asc_sorted.
  - assert ("m4a" ∈ codecs) as Hin by (apply Hmem; auto).
    unfold codec_index, default_codec.
    rewrite bool_decide_eq_true_2 by done.
    by apply index_elem_of.
Qed.

Lemma codec_picker_options_witness :
  (∀ X : gset string, elements X ≡ₚ elements X) ∧
  let codecs := codecs_of elements [("webm", Some 160); ("m4a", Some 129)] in
  (∀ c, c ∈ codecs ↔
        c = "mp3" ∨ c = "m4a" ∨
        ∃ b, (c, b) ∈ [("webm", Some 160); ("m4a", Some 129)]) ∧
  NoDup codecs ∧
  StronglySorted String.le codecs ∧
  ∃ i, codec_index codecs = Some i ∧ codecs !! i = Some "m4a".
Proof.
  split; [reflexivity|].
  apply (codec_picker_options elements [("webm", Some 160); ("m4a", Some 129)]
           (λ X, reflexivity (elements X))).
Defined.

Example codec_picker_example :
  codecs_of elements [("webm", Some 160); ("m4a", Some 129)] = ["m4a"; "mp3"; "webm"] ∧
  codec_index ["m4a"; "mp3"; "webm"] = Some 0%nat ∧
  codec_index ["aac"; "m4a"; "mp3"] = Some 1%nat.
Proof. vm_compute. done. Qed.

(** *** The download buttons *)

Section HandlerFacts.
Variable mkdtemp : gmap string Dir → string.
Variable extractor : YdlOpts → list string → Result unit * Dir.

Lemma on_download_video_world url sel w :
  (on_download_video mkdtemp extractor url sel w).2
  = (download_video mkdtemp extractor url sel w).2.
Proof.
  unfold on_download_video.
  by destruct (download_video mkdtemp extractor url sel w) as [[[[? ?] ?]|?] ?].
Qed.

Lemma on_download_audio_world url codec q w :
  (on_download_audio mkdtemp extractor url codec q w).2
  = (download_audio mkdtemp extractor url codec (Some q) w).2.
Proof.
  unfold on_download_audio.
  by destruct (download_audio mkdtemp extractor url codec (Some q) w)
    as [[[[? ?] ?]|?] ?].
Qed.

(** A listing either has no name with the stem or splits at the first one. *)
Lemma listing_cases (files : Dir) :
  Forall (λ entry, startswith entry.1 "output." = false) files ∨
  Exists (λ entry, startswith entry.1 "output." = true) files.
Proof.
  induction files as [|[n d] files [IH|IH]].
  - left. constructor.
  - destruct (startswith n "output.") eqn:Hn.
    + right. by left.
    + left. by constructor.
  - right. by right.
Qed.

(** Whatever bitrate of the slider is chosen, it is the quality the
    extractor is asked for: the fallback to [192] never replaces a choice
    of the menu. *)
Theorem quality_menu_respected url sel_codec sel_quality w :
  sel_quality ∈ quality_options →
  postprocessors_handed
    (on_download_audio mkdtemp extractor url sel_codec sel_quality w).2
  = (postprocessors_handed w ++
     [Some [ {| key := "FFmpegExtractAudio";
                preferredcodec := sel_codec;
                preferredquality := str_of_int sel_quality |} ]])%list.
Proof.
  intros Hin. rewrite on_download_audio_world, download_audio_steps.
  unfold postprocessors_handed; simpl. rewrite fmap_app; simpl.
  assert (sel_quality ≠ 0) as Hne.
  { unfold quality_options in Hin.
    repeat (apply elem_of_cons in Hin as [->|Hin]; [done|]).
    by apply elem_of_nil in Hin. }
  unfold truthy_int. by destruct (Z.eqb_spec sel_quality 0).
Qed.

(** The page after [Download Video]: an exception of the extractor or a
    missing output shows as one error message and nothing is offered; a
    download button is offered exactly when the extractor returned and left
    an output file, and then it carries that file. *)
Theorem video_button_page url sel w :
  let run := extractor (video_ydl_opts (mkdtemp (scratch w)) sel) [url] in
  let page := (on_download_video mkdtemp extractor url sel w).1 in
  (∀ e, run.1 = Raise e →
     page = [StSpinner "Downloading video...";
             StError ("Download failed: " ++ str_of_exn e)]) ∧
  (run.1 = Ok () →
   Forall (λ entry, startswith entry.1 "output." = false) run.2 →
     page = [StSpinner "Downloading video...";
             StError "Download failed: Downloaded file not found."]) ∧
  (∀ before name data after,
     run.1 = Ok () →
     run.2 = (before ++ (name, data) :: after)%list →
     Forall (λ entry, startswith entry.1 "output." = false) before →
     startswith name "output." = true →
     page = [StSpinner "Downloading video...";
             StSuccess "Video ready!";
             StDownloadButton ("Save " ++ name) data name
               (detect_mime_from_ext (last_item (split "." name)))]) ∧
  ((∃ label data name mime, StDownloadButton label data name mime ∈ page) ↔
   run.1 = Ok () ∧
   Exists (λ entry, startswith entry.1 "output." = true) run.2).
Proof.
  intros run page.
  pose proof (scan_after_run run) as (Hraise & Hnone & Hfound).
  assert ((download_video mkdtemp extractor url sel w).1
          = match run.1 with
            | Ok _ => scan_listing run.2 "output."
            | Raise e' => Raise e'
            end) as Hres by (by rewrite download_video_steps).
  rewrite <- Hres in Hraise, Hnone, Hfound.
  assert (∀ e, (download_video mkdtemp extractor url sel w).1 = Raise e →
            page = [StSpinner "Downloading video...";
                    StError ("Download failed: " ++ str_of_exn e)]) as Hfail.
  { intros e He. subst page. unfold on_download_video.
    destruct (download_video mkdtemp extractor url sel w) as [r w'].
    simpl in He. by subst r. }
  assert (∀ data name mime,
            (download_video mkdtemp extractor url sel w).1 = Ok (data, name, mime) →
            page = [StSpinner "Downloading video...";
                    StSuccess "Video ready!";
                    StDownloadButton ("Save " ++ name) data name mime]) as Hok.
  { intros data name mime He. subst page. unfold on_download_video.
    destruct (download_video mkdtemp extractor url sel w) as [r w'].
    simpl in He. by subst r. }
  assert (∀ body, ¬ ∃ label data name mime,
            StDownloadButton label data name mime
            ∈ [StSpinner "Downloading video..."; StError body]) as Hnobutton.
  { intros body (l & d & n & m & Hin).
    repeat (apply elem_of_cons in Hin as [?|Hin]; [done|]).
    by apply elem_of_nil in Hin. }
  split_and!.
  - intros e He. by apply Hfail, Hraise.
  - intros Hrun Hno. by apply (Hfail (FileNotFoundError _)), Hnone.
  - intros before name data after Hrun Hfiles Hb Hn.
    by eapply Hok, Hfound.
  - destruct (run.1) as [[]|e] eqn:Hrun.
    + destruct (listing_cases run.2) as [Hno|Hex].
      * rewrite (Hfail _ (Hnone eq_refl Hno)). split.
        -- intros Hb. by destruct (Hnobutton _ Hb).
        -- intros [_ Hex]. apply Exists_exists in Hex as (entry & Hin & Hm).
           rewrite Forall_forall in Hno. specialize (Hno _ Hin). congruence.
      * split; [done|]. intros _.
        destruct (first_match_split _ _ Hex)
          as (before & name & data & after & Hfiles & Hb & Hn).
        rewrite (Hok _ _ _ (Hfound _ _ _ _ eq_refl Hfiles Hb Hn)).
        eexists _, _, _, _. right; right; left.
    + rewrite (Hfail _ (Hraise _ eq_refl)). split.
      * intros Hb. by destruct (Hnobutton _ Hb).
      * by intros [? _].
Qed.

(** The page after [Download Audio], in the same way. *)
Theorem audio_button_page url sel_codec sel_quality w :
  let run :=
    extractor (audio_ydl_opts (mkdtemp (scratch w)) sel_codec (Some sel_quality))
      [url] in
  let page := (on_download_audio mkdtemp extractor url sel_codec sel_quality w).1 in
  (∀ e, run.1 = Raise e →
     page = [StSpinner "Downloading audio...";
             StError ("Download failed: " ++ str_of_exn e)]) ∧
  (run.1 = Ok () →
   Forall (λ entry, startswith entry.1 "output." = false) run.2 →
     page = [StSpinner "Downloading audio...";
             StError "Download failed: Downloaded file not found."]) ∧
  (∀ before name data after,
     run.1 = Ok () →
     run.2 = (before ++ (name, data) :: after)%list →
     Forall (λ entry, startswith entry.1 "output." = false) before →
     startswith name "output." = true →
     page = [StSpinner "Downloading audio...";
             StSuccess "Audio ready!";
             StDownloadButton ("Save " ++ name) data name
               (detect_mime_from_ext (last_item (split "." name)))]) ∧
  ((∃ label data name mime, StDownloadButton label data name mime ∈ page) ↔
   run.1 = Ok () ∧
   Exists (λ entry, startswith entry.1 "output." = true) run.2).
Proof.
  intros run page.
  pose proof (scan_after_run run) as (Hraise & Hnone & Hfound).
  assert ((download_audio mkdtemp extractor url sel_codec (Some sel_quality) w).1
          = match run.1 with
            | Ok _ => scan_listing run.2 "output."
            | Raise e' => Raise e'
            end) as Hres by (by rewrite download_audio_steps).
  rewrite <- Hres in Hraise, Hnone, Hfound.
  assert (∀ e, (download_audio mkdtemp extractor url sel_codec
                  (Some sel_quality) w).1 = Raise e →
            page = [StSpinner "Downloading audio...";
                    StError ("Download failed: " ++ str_of_exn e)]) as Hfail.
  { intros e He. subst page. unfold on_download_audio.
    destruct (download_audio mkdtemp extractor url sel_codec (Some sel_quality) w)
      as [r w'].
    simpl in He. by subst r. }
  assert (∀ data name mime,
            (download_audio mkdtemp extractor url sel_codec
               (Some sel_quality) w).1 = Ok (data, name, mime) →
            page = [StSpinner "Downloading audio...";
                    StSuccess "Audio ready!";
                    StDownloadButton ("Save " ++ name) data name mime]) as Hok.
  { intros data name mime He. subst page. unfold on_download_audio.
    destruct (download_audio mkdtemp extractor url sel_codec (Some sel_quality) w)
      as [r w'].
    simpl in He. by subst r. }
  assert (∀ body, ¬ ∃ label data name mime,
            StDownloadButton label data name mime
            ∈ [StSpinner "Downloading audio..."; StError body]) as Hnobutton.
  { intros body (l & d & n & m & Hin).
    repeat (apply elem_of_cons in Hin as [?|Hin]; [done|]).
    by apply elem_of_nil in Hin. }
  split_and!.
  - intros e He. by apply Hfail, Hraise.
  - intros Hrun Hno. by apply (Hfail (FileNotFoundError _)), Hnone.
  - intros before name data after Hrun Hfiles Hb Hn.
    by eapply Hok, Hfound.
  - destruct (run.1) as [[]|e] eqn:Hrun.
    + destruct (listing_cases run.2) as [Hno|Hex].
      * rewrite (Hfail _ (Hnone eq_refl Hno)). split.
        -- intros Hb. by destruct (Hnobutton _ Hb).
        -- intros [_ Hex]. apply Exists_exists in Hex as (entry & Hin & Hm).
           rewrite Forall_forall in Hno. specialize (Hno _ Hin). congruence.
      * split; [done|]. intros _.
        destruct (first_match_split _ _ Hex)
          as (before & name & data & after & Hfiles & Hb & Hn).
        rewrite (Hok _ _ _ (Hfound _ _ _ _ eq_refl Hfiles Hb Hn)).
        eexists _, _, _, _. right; right; left.
    + rewrite (Hfail _ (Hraise _ eq_refl)). split.
      * intros Hb. by destruct (Hnobutton _ Hb).
      * by intros [? _].
Qed.
End HandlerFacts.

Lemma quality_menu_respected_witness :
  128 ∈ quality_options ∧
  postprocessors_handed
    (on_download_audio sample_mkdtemp mp4_extractor sample_url "mp3" 128
       empty_world).2
  = (postprocessors_handed empty_world ++
     [Some [ {| key := "FFmpegExtractAudio";
                preferredcodec := "mp3";
                preferredquality := str_of_int 128 |} ]])%list.
Proof.
  assert (128 ∈ quality_options) as Hin
    by (unfold quality_options; do 4 right; left).
  split; [exact Hin|].
  apply (quality_menu_respected sample_mkdtemp mp4_extractor sample_url "mp3" 128
           empty_world Hin).
Defined.

Example video_button_pages :
  (on_download_video sample_mkdtemp mp4_extractor sample_url (Some 1080)
     busy_world).1
  = [StSpinner "Downloading video..."; StSuccess "Video ready!";
     StDownloadButton "Save output.mp4" [Byte.x00; Byte.x01; Byte.x02]
       "output.mp4" "video/mp4"] ∧
  (on_download_video sample_mkdtemp failing_extractor sample_url None
     busy_world).1
  = [StSpinner "Downloading video...";
     StError "Download failed: Unsupported URL"] ∧
  (on_download_audio sample_mkdtemp silent_extractor sample_url "mp3" 192
     busy_world).1
  = [StSpinner "Downloading audio...";
     StError "Download failed: Downloaded file not found."].
Proof. vm_compute. done. Qed.
